(** * Notice generator (makenotice.py): shallow embedding and verification

    The development follows the layout of [src/makenotice.py]:

    - [PyStr]: the Python [str] primitives the program calls
      ([isalpha], [isalnum], [strip], [upper], [lower], [in], [replace],
      [join]), over ASCII text;
    - [Ifsc]: [IFSC_BANK_MAP], [get_bank_name], [validate_ifsc];
    - [Grouping]: the grouping loop of [read_excel_data];
    - [Docx]: the part of the python-docx object model the program reads
      and writes;
    - [Notice]: [_detect_tone], [_apply_tone], the baseline extractors,
      [_apply_baseline_to_paragraph], [update_word_template];
    - [Batch]: the per-group loop of [main];
    - [Sheet]: the column search of [read_excel_data] and the function
      itself, over the two pandas readers;
    - [Main]: [main] after argument parsing.

    Exceptions are explicit: a computation that can raise returns a
    [result]; the [try]/[except Exception] blocks of the source are the
    places where a [Raise] is turned into a value. *)

From Stdlib Require Import ZArith NArith Ascii String.
From stdpp Require Import base option list gmap strings.

(** ** Exceptions *)

Inductive exn : Type :=
  | IndexError
  | IOError.

Inductive result (A : Type) : Type :=
  | Ok (a : A)
  | Raise (e : exn).
Arguments Ok {A} a.
Arguments Raise {A} e.

#[global] Instance result_ret : MRet result := fun A a => Ok a.
#[global] Instance result_bind : MBind result := fun A B f m =>
  match m with
  | Ok a => f a
  | Raise e => Raise e
  end.

#[global] Instance result_fmap : FMap result := fun A B f m =>
  match m with
  | Ok a => Ok (f a)
  | Raise e => Raise e
  end.

(** [for x in xs: st = body(st, x)], stopping at the first exception. *)
Fixpoint for_each {A S} (body : S → A → result S) (xs : list A) (st : S)
  : result S :=
  match xs with
  | [] => Ok st
  | x :: xs' => st' ← body st x; for_each body xs' st'
  end.


(** ** Python strings *)

Module PyStr.

Definition code (c : ascii) : N := N_of_ascii c.

Definition between (lo hi : N) (c : ascii) : bool :=
  (lo <=? code c)%N && (code c <=? hi)%N.

Definition is_upper_char (c : ascii) : bool := between 65 90 c.
Definition is_lower_char (c : ascii) : bool := between 97 122 c.
Definition is_digit_char (c : ascii) : bool := between 48 57 c.

(** [c.isalpha()], [c.isalnum()], [c.isspace()] for one character. *)
Definition isalpha_char (c : ascii) : bool :=
  is_upper_char c || is_lower_char c.
Definition isalnum_char (c : ascii) : bool :=
  isalpha_char c || is_digit_char c.
Definition isspace_char (c : ascii) : bool :=
  between 9 13 c || between 28 32 c.

Definition upper_char (c : ascii) : ascii :=
  if is_lower_char c then ascii_of_N (code c - 32) else c.
Definition lower_char (c : ascii) : ascii :=
  if is_upper_char c then ascii_of_N (code c + 32) else c.

Fixpoint all_chars (p : ascii → bool) (s : string) : bool :=
  match s with
  | EmptyString => true
  | String c s' => p c && all_chars p s'
  end.

Definition is_empty (s : string) : bool :=
  match s with EmptyString => true | String _ _ => false end.

(** [s.isalpha()] and [s.isalnum()]: false on the empty string. *)
Definition isalpha (s : string) : bool :=
  negb (is_empty s) && all_chars isalpha_char s.
Definition isalnum (s : string) : bool :=
  negb (is_empty s) && all_chars isalnum_char s.

Fixpoint map_chars (f : ascii → ascii) (s : string) : string :=
  match s with
  | EmptyString => EmptyString
  | String c s' => String (f c) (map_chars f s')
  end.

Definition upper : string → string := map_chars upper_char.
Definition lower : string → string := map_chars lower_char.

(** [s[:n]] and [s[n:]] for [n >= 0]. *)
Fixpoint slice_to (n : nat) (s : string) : string :=
  match n, s with
  | S n', String c s' => String c (slice_to n' s')
  | _, _ => EmptyString
  end.
Fixpoint slice_from (n : nat) (s : string) : string :=
  match n, s with
  | S n', String _ s' => slice_from n' s'
  | _, _ => s
  end.

(** [s[i]] for [i >= 0]: raises [IndexError] out of range. *)
Definition index (s : string) (i : nat) : result ascii :=
  match String.get i s with
  | Some c => Ok c
  | None => Raise IndexError
  end.

Fixpoint lstrip (s : string) : string :=
  match s with
  | EmptyString => EmptyString
  | String c s' => if isspace_char c then lstrip s' else s
  end.
Fixpoint rstrip (s : string) : string :=
  match s with
  | EmptyString => EmptyString
  | String c s' =>
      let r := rstrip s' in
      if isspace_char c && is_empty r then EmptyString else String c r
  end.
Definition strip (s : string) : string := rstrip (lstrip s).

(** [needle in hay]. *)
Fixpoint contains (needle hay : string) : bool :=
  String.prefix needle hay
  || match hay with
     | EmptyString => false
     | String _ hay' => contains needle hay'
     end.

(** [sep.join(parts)]. *)
Fixpoint join (sep : string) (parts : list string) : string :=
  match parts with
  | [] => EmptyString
  | [p] => p
  | p :: rest => p +:+ sep +:+ join sep rest
  end.

(** [s.replace(old, new)] for a non-empty [old]: leftmost occurrences,
    not overlapping. [skip] counts the characters of a match still to
    be dropped. *)
Fixpoint replace_from (old new : string) (skip : nat) (s : string) : string :=
  match s with
  | EmptyString => EmptyString
  | String c s' =>
      match skip with
      | S k => replace_from old new k s'
      | O =>
          if String.prefix old s
          then new +:+ replace_from old new (String.length old - 1) s'
          else String c (replace_from old new 0 s')
      end
  end.

(** [s.replace("", new)] puts [new] before every character and at the end. *)
Fixpoint intersperse (new s : string) : string :=
  match s with
  | EmptyString => new
  | String c s' => new +:+ String c (intersperse new s')
  end.

Definition replace (old new s : string) : string :=
  if is_empty old then intersperse new s else replace_from old new 0 s.

End PyStr.

(** ** IFSC codes *)

Module Ifsc.

Definition IFSC_BANK_MAP : gmap string string :=
  list_to_map
    [ ("SBIN", "STATE BANK OF INDIA");
      ("ALLA", "ALLAHABAD BANK");
      ("ANDB", "ANDHRA BANK");
      ("BARB", "BANK OF BARODA");
      ("BKID", "BANK OF INDIA");
      ("MAHB", "BANK OF MAHARASHTRA");
      ("CNRB", "CANARA BANK");
      ("CBIN", "CENTRAL BANK OF INDIA");
      ("CORP", "CORPORATION BANK");
      ("BKDN", "DENA BANK");
      ("IBKL", "IDBI BANK");
      ("IDIB", "INDIAN BANK");
      ("IOBA", "INDIAN OVERSEAS BANK");
      ("ORBC", "ORIENTAL BANK OF COMMERCE");
      ("PSIB", "PUNJAB & SIND BANK");
      ("PUNB", "PUNJAB NATIONAL BANK");
      ("SBBJ", "STATE BANK OF BIKANER & JAIPUR");
      ("SBHY", "STATE BANK OF HYDERABAD");
      ("SBMY", "STATE BANK OF MYSORE");
      ("STBP", "STATE BANK OF PATIALA");
      ("SBTR", "STATE BANK OF TRAVANCORE");
      ("SYNB", "SYNDICATE BANK");
      ("UCBA", "UCO BANK");
      ("UBIN", "UNION BANK OF INDIA");
      ("UTBI", "UNITED BANK OF INDIA");
      ("VIJB", "VIJAYA BANK");
      ("BMBL", "BHARTIYA MAHILA BANK");
      ("UTIB", "AXIS BANK");
      ("HDFC", "HDFC BANK");
      ("ICIC", "ICICI BANK");
      ("INDB", "INDUSIND BANK");
      ("KKBK", "KOTAK MAHINDRA BANK");
      ("YESB", "YES BANK");
      ("DCBL", "DCB BANK");
      ("FDRL", "FEDERAL BANK");
      ("KARB", "KARNATAKA BANK");
      ("KVBL", "KARUR VYSYA BANK");
      ("RATN", "RBL BANK");
      ("SIBL", "SOUTH INDIAN BANK");
      ("TMBL", "TAMILNAD MERCANTILE BANK");
      ("VYSA", "ING VYSYA BANK");
      ("ABHY", "ABHYUDAYA CO-OP BANK");
      ("ASBL", "APNA SAHAKARI BANK");
      ("GSCB", "GUJARAT STATE CO-OP BANK");
      ("HCBL", "HASTI CO-OP BANK");
      ("JSBP", "JANATA SAHAKARI BANK");
      ("MSNU", "MEHSANA URBAN CO-OP BANK");
      ("NTBL", "NAINITAL BANK");
      ("NKGS", "NKGSB CO-OP BANK");
      ("PMCB", "PUNJAB & MAHARASHTRA CO-OP BANK");
      ("SRCB", "SARASWAT BANK");
      ("CIUB", "CITY UNION BANK");
      ("CSBK", "CATHOLIC SYRIAN BANK");
      ("DLXB", "DHANLAXMI BANK");
      ("ESFB", "EQUITAS SMALL FINANCE BANK");
      ("IDFB", "IDFC FIRST BANK");
      ("JAKA", "JAMMU & KASHMIR BANK");
      ("LAVB", "LAKSHMI VILAS BANK");
      ("NSPB", "NSDL PAYMENTS BANK");
      ("PAYU", "PAYU PAYMENTS PRIVATE LIMITED");
      ("PYTM", "PAYTM PAYMENTS BANK") ].

(** [str(x)] inside an f-string, for a value that is a string or [None]. *)
Definition fmt (x : option string) : string :=
  match x with
  | Some s => s
  | None => "None"
  end.

(** Truthiness of a string-or-[None] value. *)
Definition truthy (x : option string) : bool :=
  match x with
  | Some s => negb (PyStr.is_empty s)
  | None => false
  end.

Definition get_bank_name (ifsc_code : option string) : string :=
  match ifsc_code with
  | None => "UNKNOWN BANK (" +:+ fmt ifsc_code +:+ ")"
  | Some s =>
      if negb (truthy ifsc_code) || (String.length s <? 4)%nat
      then "UNKNOWN BANK (" +:+ fmt ifsc_code +:+ ")"
      else
        let bank_code := PyStr.upper (PyStr.slice_to 4 s) in
        let bank_name := IFSC_BANK_MAP !! bank_code in
        if truthy bank_name
        then fmt bank_name
        else bank_code +:+ " BANK"
  end.

Definition validate_ifsc (ifsc_code : string) : result bool :=
  if negb (String.length ifsc_code =? 11)%nat then Ok false
  else if negb (PyStr.isalpha (PyStr.slice_to 4 ifsc_code)) then Ok false
  else
    c ← PyStr.index ifsc_code 4;
    if negb (Ascii.eqb c "0"%char) then Ok false
    else if negb (PyStr.isalnum (PyStr.slice_from 5 ifsc_code)) then Ok false
    else Ok true.

(** The format in the words of the specification: eleven characters,
    four alphabetic, then the character 0, then six alphanumeric. *)
Definition well_formed_ifsc (s : string) : Prop :=
  String.length s = 11
  ∧ (∀ i c, i < 4 → String.get i s = Some c → PyStr.isalpha_char c = true)
  ∧ String.get 4 s = Some "0"%char
  ∧ (∀ i c, 5 ≤ i < 11 → String.get i s = Some c →
            PyStr.isalnum_char c = true).

End Ifsc.

(** ** Grouping rows by IFSC code ([read_excel_data], the loop over
    [df.iterrows()]) *)

Module Grouping.

(** One spreadsheet row, as the three cells [str(row[col])] the loop
    reads (column resolution happens before the loop). *)
Record row : Type := mk_row {
  row_account : string;
  row_name : string;
  row_ifsc : string;
}.

(** The dict appended to a group. *)
Record account : Type := mk_account {
  account_no : string;
  account_name : string;
  ifsc : string;
}.

(** [defaultdict(list)]: keys in insertion order. *)
Definition groups : Type := list (string * list account).

Definition keys (g : groups) : list string := g.*1.

Fixpoint get (g : groups) (k : string) : option (list account) :=
  match g with
  | [] => None
  | (k', v) :: g' => if String.eqb k' k then Some v else get g' k
  end.

(** [grouped[k].append(a)]: a missing key is created with an empty
    list, at the end of the key order. *)
Fixpoint append_to (k : string) (a : account) (g : groups) : groups :=
  match g with
  | [] => [(k, [a])]
  | (k', v) :: g' =>
      if String.eqb k' k then (k', v ++ [a]) :: g'
      else (k', v) :: append_to k a g'
  end.

Record state : Type := mk_state {
  grouped : groups;
  invalid_ifsc : list string;
}.

Definition group_row (st : state) (r : row) : result state :=
  let ifsc := PyStr.upper (PyStr.strip (row_ifsc r)) in
  valid ← Ifsc.validate_ifsc ifsc;
  if negb valid
  then Ok (mk_state (grouped st) (invalid_ifsc st ++ [ifsc]))
  else Ok (mk_state
             (append_to ifsc
                (mk_account (PyStr.strip (row_account r))
                            (PyStr.strip (row_name r))
                            ifsc)
                (grouped st))
             (invalid_ifsc st)).

Definition group_rows (rows : list row) : result state :=
  for_each group_row rows (mk_state [] []).

(** The record the loop builds from row [r] when the normalised code
    of [r] is [k]. *)
Definition from_row (r : row) (k : string) (a : account) : Prop :=
  k = PyStr.upper (PyStr.strip (row_ifsc r))
  ∧ a = mk_account (PyStr.strip (row_account r)) (PyStr.strip (row_name r)) k.

(** Total number of records over all groups. *)
Definition total_accounts (g : groups) : nat :=
  sum_list (length <$> g.*2).

(** What the loop maintains, [seen] being the rows processed so far:
    each group has a valid key and is not empty, and each of its
    records was built from a processed row with that code. *)
Definition group_ok (seen : list row) (k : string) (v : list account) : Prop :=
  Ifsc.validate_ifsc k = Ok true
  ∧ v ≠ []
  ∧ Forall (λ a, ifsc a = k ∧ ∃ r, r ∈ seen ∧ from_row r k a) v.

Definition grouping_inv (seen : list row) (st : state) : Prop :=
  Forall (λ kv, group_ok seen kv.1 kv.2) (grouped st)
  ∧ NoDup (keys (grouped st))
  ∧ length (invalid_ifsc st) + total_accounts (grouped st) = length seen.

End Grouping.

(** ** The python-docx object model

    Only what [makenotice.py] reads or writes. Lengths are integers in
    EMU, as python-docx's [Length]; cell widths and margins are in
    twips, as the XML attributes the program writes. A table addresses
    its cells by row and column; merged cells and nested tables are not
    modelled. *)

Module Docx.

(** [Pt(n)] and [int(length.pt)]. *)
Definition Pt (points : Z) : Z := (points * 12700)%Z.
Definition pt_int (emu : Z) : Z := (emu ÷ 12700)%Z.

Inductive alignment : Type :=
  | AlignLeft | AlignCenter | AlignRight | AlignJustify.
Inductive table_alignment : Type :=
  | TableLeft | TableCenter | TableRight.
Inductive vertical_alignment : Type :=
  | VTop | VCenter | VBottom.
Inductive height_rule : Type :=
  | HeightAuto | HeightAtLeast | HeightExactly.
Inductive style_type : Type :=
  | ParagraphStyle | CharacterStyle | TableStyle | ListStyle.

(** [paragraph_format.line_spacing]: a multiple of the line height
    (in 240ths) or a fixed length. The program only copies it. *)
Inductive line_spacing : Type :=
  | LineMultiple (w_line : Z)
  | LineLength (emu : Z).

Record rgb : Type := RGBColor { red : Z; green : Z; blue : Z }.

Record run : Type := mk_run {
  r_text : string;
  r_font_name : option string;
  r_font_size : option Z;
  r_bold : option bool;
  r_color : option rgb;
}.

Record paragraph : Type := mk_paragraph {
  p_runs : list run;
  p_style : option string;
  p_alignment : option alignment;
  p_space_before : option Z;
  p_space_after : option Z;
  p_line_spacing : option line_spacing;
  p_left_indent : option Z;
  p_right_indent : option Z;
  p_first_line_indent : option Z;
}.

(** A [w:top], [w:left], ... child of a borders element. *)
Record border_edge : Type := mk_edge {
  e_name : string;
  e_val : string;
  e_sz : string;
  e_space : string;
  e_color : string;
}.

(** A [w:tcMar] element: four widths of type [dxa]. *)
Record margins : Type := mk_margins {
  m_top : Z; m_left : Z; m_bottom : Z; m_right : Z;
}.

(** A cell. [c_tcMar] and [c_tcBorders] list the [w:tcMar] and
    [w:tcBorders] children of the cell properties in document order:
    the program appends a new element each time. *)
Record cell : Type := mk_cell {
  c_paragraphs : list paragraph;
  c_width : option Z;
  c_tcMar : list margins;
  c_tcBorders : list (list border_edge);
  c_vertical_alignment : option vertical_alignment;
}.

Record row : Type := mk_table_row {
  row_cells : list cell;
  row_height : option Z;
  row_height_rule : option height_rule;
}.

(** [t_grid] holds the [w:gridCol] widths: [len(table.columns)] is its
    length. *)
Record table : Type := mk_table {
  t_grid : list (option Z);
  t_rows : list row;
  t_alignment : option table_alignment;
  t_style : option string;
  t_tblBorders : list (list border_edge);
}.

Record document : Type := mk_document {
  d_paragraphs : list paragraph;
  d_tables : list table;
  d_styles : gmap string style_type;
}.

(** *** Field updates *)

Definition run_set_font_name (v : option string) (r : run) : run :=
  mk_run (r_text r) v (r_font_size r) (r_bold r) (r_color r).
Definition run_set_font_size (v : option Z) (r : run) : run :=
  mk_run (r_text r) (r_font_name r) v (r_bold r) (r_color r).
Definition run_set_bold (v : option bool) (r : run) : run :=
  mk_run (r_text r) (r_font_name r) (r_font_size r) v (r_color r).
Definition run_set_color (v : option rgb) (r : run) : run :=
  mk_run (r_text r) (r_font_name r) (r_font_size r) (r_bold r) v.

Definition par_set_runs (v : list run) (p : paragraph) : paragraph :=
  mk_paragraph v (p_style p) (p_alignment p) (p_space_before p)
    (p_space_after p) (p_line_spacing p) (p_left_indent p)
    (p_right_indent p) (p_first_line_indent p).
Definition par_set_style (v : option string) (p : paragraph) : paragraph :=
  mk_paragraph (p_runs p) v (p_alignment p) (p_space_before p)
    (p_space_after p) (p_line_spacing p) (p_left_indent p)
    (p_right_indent p) (p_first_line_indent p).
Definition par_set_alignment (v : option alignment) (p : paragraph)
  : paragraph :=
  mk_paragraph (p_runs p) (p_style p) v (p_space_before p)
    (p_space_after p) (p_line_spacing p) (p_left_indent p)
    (p_right_indent p) (p_first_line_indent p).
Definition par_set_space_before (v : option Z) (p : paragraph) : paragraph :=
  mk_paragraph (p_runs p) (p_style p) (p_alignment p) v
    (p_space_after p) (p_line_spacing p) (p_left_indent p)
    (p_right_indent p) (p_first_line_indent p).
Definition par_set_space_after (v : option Z) (p : paragraph) : paragraph :=
  mk_paragraph (p_runs p) (p_style p) (p_alignment p) (p_space_before p)
    v (p_line_spacing p) (p_left_indent p)
    (p_right_indent p) (p_first_line_indent p).
Definition par_set_line_spacing (v : option line_spacing) (p : paragraph)
  : paragraph :=
  mk_paragraph (p_runs p) (p_style p) (p_alignment p) (p_space_before p)
    (p_space_after p) v (p_left_indent p)
    (p_right_indent p) (p_first_line_indent p).
Definition par_set_left_indent (v : option Z) (p : paragraph) : paragraph :=
  mk_paragraph (p_runs p) (p_style p) (p_alignment p) (p_space_before p)
    (p_space_after p) (p_line_spacing p) v
    (p_right_indent p) (p_first_line_indent p).
Definition par_set_right_indent (v : option Z) (p : paragraph) : paragraph :=
  mk_paragraph (p_runs p) (p_style p) (p_alignment p) (p_space_before p)
    (p_space_after p) (p_line_spacing p) (p_left_indent p)
    v (p_first_line_indent p).
Definition par_set_first_line_indent (v : option Z) (p : paragraph)
  : paragraph :=
  mk_paragraph (p_runs p) (p_style p) (p_alignment p) (p_space_before p)
    (p_space_after p) (p_line_spacing p) (p_left_indent p)
    (p_right_indent p) v.

Definition cell_set_paragraphs (v : list paragraph) (c : cell) : cell :=
  mk_cell v (c_width c) (c_tcMar c) (c_tcBorders c)
    (c_vertical_alignment c).
Definition cell_set_width (v : option Z) (c : cell) : cell :=
  mk_cell (c_paragraphs c) v (c_tcMar c) (c_tcBorders c)
    (c_vertical_alignment c).
Definition cell_set_tcMar (v : list margins) (c : cell) : cell :=
  mk_cell (c_paragraphs c) (c_width c) v (c_tcBorders c)
    (c_vertical_alignment c).
Definition cell_set_tcBorders (v : list (list border_edge)) (c : cell)
  : cell :=
  mk_cell (c_paragraphs c) (c_width c) (c_tcMar c) v
    (c_vertical_alignment c).
Definition cell_set_vertical_alignment (v : option vertical_alignment)
  (c : cell) : cell :=
  mk_cell (c_paragraphs c) (c_width c) (c_tcMar c) (c_tcBorders c) v.

Definition row_set_cells (v : list cell) (r : row) : row :=
  mk_table_row v (row_height r) (row_height_rule r).
Definition row_set_height (v : option Z) (r : row) : row :=
  mk_table_row (row_cells r) v (row_height_rule r).
Definition row_set_height_rule (v : option height_rule) (r : row) : row :=
  mk_table_row (row_cells r) (row_height r) v.

Definition table_set_rows (v : list row) (t : table) : table :=
  mk_table (t_grid t) v (t_alignment t) (t_style t) (t_tblBorders t).
Definition table_set_alignment (v : option table_alignment) (t : table)
  : table :=
  mk_table (t_grid t) (t_rows t) v (t_style t) (t_tblBorders t).
Definition table_set_style (v : option string) (t : table) : table :=
  mk_table (t_grid t) (t_rows t) (t_alignment t) v (t_tblBorders t).
Definition table_set_tblBorders (v : list (list border_edge)) (t : table)
  : table :=
  mk_table (t_grid t) (t_rows t) (t_alignment t) (t_style t) v.

Definition doc_set_paragraphs (v : list paragraph) (d : document)
  : document :=
  mk_document v (d_tables d) (d_styles d).
Definition doc_set_tables (v : list table) (d : document) : document :=
  mk_document (d_paragraphs d) v (d_styles d).

(** *** Text properties *)

(** [paragraph.text]: the run texts, concatenated. *)
Definition paragraph_text (p : paragraph) : string :=
  PyStr.join "" (r_text <$> p_runs p).

(** A run as [add_run(text)] creates it: no character formatting. *)
Definition new_run (text : string) : run :=
  mk_run text None None None None.

(** [paragraph.text = text]: the content is cleared and one run is
    added; the paragraph properties stay. *)
Definition set_paragraph_text (text : string) (p : paragraph) : paragraph :=
  par_set_runs [new_run text] p.

(** [cell.text]: the paragraph texts joined by newlines. *)
Definition cell_text (c : cell) : string :=
  PyStr.join (String "010"%char EmptyString) (paragraph_text <$> c_paragraphs c).

Definition new_paragraph (runs : list run) : paragraph :=
  mk_paragraph runs None None None None None None None None.

(** [cell.text = text]: the cell content becomes one paragraph with
    one run; the cell properties stay. *)
Definition set_cell_text (text : string) (c : cell) : cell :=
  cell_set_paragraphs [new_paragraph [new_run text]] c.

(** The texts of the body paragraphs, and of the paragraphs of every
    cell of every row of every table, in document order. *)
Definition body_texts (d : document) : list string :=
  paragraph_text <$> d_paragraphs d.
Definition cell_texts (c : cell) : list string :=
  paragraph_text <$> c_paragraphs c.
Definition table_texts (d : document) : list (list (list (list string))) :=
  (λ t, (λ r, cell_texts <$> row_cells r) <$> t_rows t) <$> d_tables d.


(** [len(table.columns)]. *)
Definition column_count (t : table) : nat := length (t_grid t).

(** A cell as [add_row] creates it: one empty paragraph, and the width
    of its grid column when that is declared. *)
Definition new_cell (grid_width : option Z) : cell :=
  mk_cell [new_paragraph []] grid_width [] [] None.

(** The row [table.add_row()] appends: one new cell per grid column. *)
Definition new_row (t : table) : row :=
  mk_table_row (new_cell <$> t_grid t) None None.

(** [xs[i]] for [i >= 0]. *)
Definition item {A} (xs : list A) (i : nat) : result A :=
  match xs !! i with
  | Some x => Ok x
  | None => Raise IndexError
  end.

(** [table.cell(row_idx, col_idx)]. *)
Definition table_cell (rows : list row) (row_idx col_idx : nat)
  : result cell :=
  r ← item rows row_idx;
  item (row_cells r) col_idx.

(** The cell at a row and column, when there is one. *)
Definition cell_at (rows : list row) (row_idx col_idx : nat) : option cell :=
  rows !! row_idx ≫= λ r, row_cells r !! col_idx.

(** What the nodal-officer step leaves alone in a row: the number of
    cells, the height and the height rule. *)
Definition row_frame (r : row) : nat * option Z * option height_rule :=
  (length (row_cells r), row_height r, row_height_rule r).

End Docx.

(** ** Notice generation *)

Module Notice.
Import Docx.

(** Truthiness of a string-or-[None] and of an integer-or-[None]. *)
Definition truthy_str := Ifsc.truthy.
Definition truthy_int (x : option Z) : bool :=
  match x with
  | Some z => negb (z =? 0)%Z
  | None => false
  end.

(** [any(k in text for k in keys)]. *)
Definition any_in (keys : list string) (text : string) : bool :=
  existsb (λ k, PyStr.contains k text) keys.

Definition _detect_tone (doc : document) : string :=
  let text :=
    PyStr.join " "
      ((λ p, PyStr.lower (paragraph_text p)) <$> d_paragraphs doc) in
  if any_in ["urgent"; "immediate"; "final notice"; "last reminder"] text
  then "urgent"
  else if any_in ["kindly"; "please"; "request"; "cooperate"] text
  then "friendly"
  else "formal".

(** The text the specification describes for tone detection: the
    lowercased concatenation of all paragraph text (no separator). *)
Definition concatenated_text (doc : document) : string :=
  PyStr.lower (PyStr.join "" (paragraph_text <$> d_paragraphs doc)).

(** The text [_detect_tone] scans: the lowercased paragraph texts,
    joined by single spaces. *)
Definition joined_text (doc : document) : string :=
  PyStr.join " " ((λ p, PyStr.lower (paragraph_text p)) <$> d_paragraphs doc).

Definition urgent_keywords : list string :=
  ["urgent"; "immediate"; "final notice"; "last reminder"].
Definition friendly_keywords : list string :=
  ["kindly"; "please"; "request"; "cooperate"].

(** Tone detection in the words of the specification, over a given
    text. *)
Definition tone_of_text (text : string) : string :=
  if any_in urgent_keywords text then "urgent"
  else if any_in friendly_keywords text then "friendly"
  else "formal".

(** The first two statements of [_apply_tone]: the tone it works with. *)
Definition resolve_tone (doc : document) (tone : string) : string :=
  let tone := if String.eqb tone "auto" then _detect_tone doc else tone in
  if negb (existsb (String.eqb tone) ["formal"; "urgent"; "friendly"])
  then "formal"
  else tone.

Definition _apply_tone (doc : document) (tone : string)
    (font_name_override : option string) (font_size_override : option Z)
  : document :=
  let tone := resolve_tone doc tone in
  let font_name := font_name_override in
  let font_size := font_size_override in
  let on_paragraph (p : paragraph) : paragraph :=
    let p :=
      if truthy_str font_name && truthy_int font_size
      then par_set_runs
             ((λ r, run_set_font_size (Pt <$> font_size)
                      (run_set_font_name font_name r)) <$> p_runs p) p
      else p in
    let p :=
      if String.eqb tone "urgent"
         && any_in ["notice"; "urgent"] (PyStr.lower (paragraph_text p))
      then par_set_runs
             ((λ r, run_set_color (Some (RGBColor 153 0 0))
                      (run_set_bold (Some true) r)) <$> p_runs p) p
      else p in
    par_set_alignment (Some AlignLeft) p in
  let on_table (t : table) : table :=
    let t := table_set_alignment (Some TableCenter) t in
    table_set_rows
      ((λ r, row_set_cells
               (cell_set_vertical_alignment (Some VCenter) <$> row_cells r)
               r) <$> t_rows t) t in
  doc_set_tables (on_table <$> d_tables doc)
    (doc_set_paragraphs (on_paragraph <$> d_paragraphs doc) doc).

Definition border (edge : string) : border_edge :=
  mk_edge edge "single" "8" "0" "000000".

Definition _set_table_borders (t : table) : table :=
  table_set_tblBorders
    (t_tblBorders t
       ++ [border <$> ["top"; "left"; "bottom"; "right"; "insideH"; "insideV"]])
    t.

Definition _set_cell_borders (c : cell) : cell :=
  cell_set_tcBorders
    (c_tcBorders c ++ [border <$> ["top"; "left"; "bottom"; "right"]]) c.

Definition _set_cell_margins (c : cell) (top left bottom right : Z) : cell :=
  cell_set_tcMar (c_tcMar c ++ [mk_margins top left bottom right]) c.

Definition spacing : Type := option Z * option Z * option line_spacing.
Definition indent : Type := option Z * option Z * option Z.

Definition set_if_some {A B} (set : option A → B → B) (v : option A) (b : B)
  : B :=
  match v with
  | Some _ => set v b
  | None => b
  end.

Definition apply_spacing (sp : option spacing) (p : paragraph) : paragraph :=
  match sp with
  | Some (sb, sa, ls) =>
      set_if_some par_set_line_spacing ls
        (set_if_some par_set_space_after sa
           (set_if_some par_set_space_before sb p))
  | None => p
  end.

Definition _apply_paragraph_style (paragraphs : list paragraph)
    (font_name : string) (font_size : Z) (sp : option spacing)
  : list paragraph :=
  (λ p,
     let p :=
       par_set_runs
         ((λ r, run_set_font_size (Some (Pt font_size))
                  (run_set_font_name (Some font_name) r)) <$> p_runs p) p in
     apply_spacing sp p) <$> paragraphs.

Definition _get_cell_width (c : cell) : option Z := c_width c.

Definition _set_cell_width (c : cell) (width_twips : option Z) : cell :=
  match width_twips with
  | None => c
  | Some _ => cell_set_width width_twips c
  end.

(** *** [_extract_template_baseline] *)

Record template_baseline : Type := mk_template_baseline {
  tmpl_font : string;
  tmpl_size : Z;
  header_widths : option (list (option Z));
  header_row_height : option Z;
  header_spacing : option spacing;
}.

(** The inner loop over [p.runs]; it stops as soon as both values are
    set. *)
Fixpoint scan_runs (rs : list run) (font_name : option string)
    (font_size : option Z) : option string * option Z :=
  match rs with
  | [] => (font_name, font_size)
  | r :: rs' =>
      let font_name :=
        if truthy_str (r_font_name r) then r_font_name r else font_name in
      let font_size :=
        if truthy_int (r_font_size r) then pt_int <$> r_font_size r
        else font_size in
      if truthy_str font_name && truthy_int font_size
      then (font_name, font_size)
      else scan_runs rs' font_name font_size
  end.

(** The outer loop over [doc.paragraphs]. *)
Fixpoint scan_paragraphs (ps : list paragraph) (font_name : option string)
    (font_size : option Z) : option string * option Z :=
  match ps with
  | [] => (font_name, font_size)
  | p :: ps' =>
      let '(font_name, font_size) :=
        scan_runs (p_runs p) font_name font_size in
      if truthy_str font_name && truthy_int font_size
      then (font_name, font_size)
      else scan_paragraphs ps' font_name font_size
  end.

(** The values the specification describes: the first non-empty font
    name, and the first non-empty font size (in whole points), over the
    runs of all paragraphs in order, each on its own. *)
Definition all_runs (doc : document) : list run :=
  d_paragraphs doc ≫= p_runs.

Fixpoint first_font_name (rs : list run) : option string :=
  match rs with
  | [] => None
  | r :: rs' =>
      if truthy_str (r_font_name r) then r_font_name r else first_font_name rs'
  end.

Fixpoint first_font_size (rs : list run) : option Z :=
  match rs with
  | [] => None
  | r :: rs' =>
      if truthy_int (r_font_size r) then pt_int <$> r_font_size r
      else first_font_size rs'
  end.

(** The test both table loops make: three grid columns, and a first
    row whose cell texts, concatenated and lowercased, contain
    "account" and "ifsc". [table.rows[0]] raises on a table without
    rows. *)
Definition is_accounts_table (t : table) : result bool :=
  if (column_count t =? 3)%nat then
    header ← item (t_rows t) 0;
    let header_text :=
      PyStr.lower (PyStr.join "" (cell_text <$> row_cells header)) in
    Ok (PyStr.contains "account" header_text
        && PyStr.contains "ifsc" header_text)
  else Ok false.

Definition first_paragraph_spacing (header : row) : option spacing :=
  match row_cells header with
  | c :: _ =>
      match c_paragraphs c with
      | hp :: _ => Some (p_space_before hp, p_space_after hp, p_line_spacing hp)
      | [] => None
      end
  | [] => None
  end.

Fixpoint scan_tables (tables : list table)
  : result (option (list (option Z)) * option Z * option spacing) :=
  match tables with
  | [] => Ok (None, None, None)
  | t :: rest =>
      found ← is_accounts_table t;
      if found : bool then
        header ← item (t_rows t) 0;
        Ok (Some (_get_cell_width <$> row_cells header),
            row_height header,
            first_paragraph_spacing header)
      else scan_tables rest
  end.

Definition _extract_template_baseline (doc : document)
    (fallback_font_name : string) (fallback_font_size : Z)
  : result template_baseline :=
  let '(font_name, font_size) := scan_paragraphs (d_paragraphs doc) None None in
  let font_name :=
    if negb (truthy_str font_name) then fallback_font_name
    else default fallback_font_name font_name in
  let font_size :=
    if negb (truthy_int font_size) then fallback_font_size
    else default fallback_font_size font_size in
  '(widths, height, sp) ← scan_tables (d_tables doc);
  Ok (mk_template_baseline font_name font_size widths height sp).

(** *** [_extract_nodal_baseline] *)

Record nodal_baseline : Type := mk_nodal_baseline {
  nb_style_name : option string;
  nb_alignment : option alignment;
  nb_spacing : option spacing;
  nb_indent : option indent;
  nb_font_name : string;
  nb_font_size : Z;
  nb_bold : option bool;
}.

(** The loop over [np.runs]: each value is taken from the first run
    that has it. *)
Fixpoint nodal_scan_runs (rs : list run) (font_name : option string)
    (font_size : option Z) (bold : option bool)
  : option string * option Z * option bool :=
  match rs with
  | [] => (font_name, font_size, bold)
  | r :: rs' =>
      let font_name :=
        if truthy_str (r_font_name r) && negb (truthy_str font_name)
        then r_font_name r else font_name in
      let font_size :=
        if truthy_int (r_font_size r) && negb (truthy_int font_size)
        then pt_int <$> r_font_size r else font_size in
      let bold :=
        match bold, r_bold r with
        | None, Some b => Some b
        | _, _ => bold
        end in
      nodal_scan_runs rs' font_name font_size bold
  end.

Definition is_nodal (text : string) : bool :=
  PyStr.contains "nodal officer" (PyStr.lower text).

(** The paragraph after the first "nodal officer" paragraph:
    [None] when no paragraph has the label, [Some None] when the
    labelled paragraph is the last one. *)
Fixpoint after_first_nodal (ps : list paragraph) : option (option paragraph) :=
  match ps with
  | [] => None
  | p :: rest =>
      if is_nodal (paragraph_text p) then Some (head rest)
      else after_first_nodal rest
  end.

Definition _extract_nodal_baseline (doc : document) (fallback_font : string)
    (fallback_size : Z) : nodal_baseline :=
  let captured :=
    match after_first_nodal (d_paragraphs doc) with
    | Some (Some np) =>
        let '(fn, fs, b) := nodal_scan_runs (p_runs np) None None None in
        (p_style np, p_alignment np,
         Some (p_space_before np, p_space_after np, p_line_spacing np),
         Some (p_left_indent np, p_right_indent np, p_first_line_indent np),
         fn, fs, b)
    | _ => (None, None, None, None, None, None, None)
    end in
  let '(sn, al, sp, ind, fn, fs, b) := captured in
  let fn := if negb (truthy_str fn) then fallback_font
            else default fallback_font fn in
  let fs := if negb (truthy_int fs) then fallback_size
            else default fallback_size fs in
  mk_nodal_baseline sn al sp ind fn fs b.

(** *** [_apply_baseline_to_paragraph] *)

Definition apply_indent (ind : option indent) (p : paragraph) : paragraph :=
  match ind with
  | Some (li, ri, fi) =>
      set_if_some par_set_first_line_indent fi
        (set_if_some par_set_right_indent ri
           (set_if_some par_set_left_indent li p))
  | None => p
  end.

(** [paragraph.style = doc.styles[name]] under [try]/[except: pass]:
    nothing changes when the document has no paragraph style of that
    name. *)
Definition try_set_style (styles : gmap string style_type) (name : string)
    (p : paragraph) : paragraph :=
  match styles !! name with
  | Some ParagraphStyle => par_set_style (Some name) p
  | _ => p
  end.

Definition _apply_baseline_to_paragraph (p : paragraph) (text : string)
    (baseline : nodal_baseline) (styles : gmap string style_type)
  : paragraph :=
  let p := set_paragraph_text text p in
  let p :=
    if truthy_str (nb_style_name baseline)
    then try_set_style styles (default "" (nb_style_name baseline)) p
    else p in
  let p := set_if_some par_set_alignment (nb_alignment baseline) p in
  let p := apply_spacing (nb_spacing baseline) p in
  let p := apply_indent (nb_indent baseline) p in
  par_set_runs
    ((λ r,
        let r := run_set_font_name (Some (nb_font_name baseline)) r in
        let r :=
          if negb (nb_font_size baseline =? 0)%Z
          then run_set_font_size (Some (Pt (nb_font_size baseline))) r
          else r in
        set_if_some run_set_bold (nb_bold baseline) r) <$> p_runs p) p.

(** *** [update_word_template] *)

(** Placeholder replacement in one paragraph. *)
Definition replace_placeholder (placeholder bank_name : string)
    (p : paragraph) : paragraph :=
  if PyStr.contains placeholder (paragraph_text p)
  then set_paragraph_text
         (PyStr.replace placeholder bank_name (paragraph_text p)) p
  else p.

(** The loop over [doc.paragraphs], then the loops over the tables,
    their rows, cells and cell paragraphs. *)
Definition replace_in_document (placeholder bank_name : string)
    (doc : document) : document :=
  let on_cell (c : cell) : cell :=
    cell_set_paragraphs
      (replace_placeholder placeholder bank_name <$> c_paragraphs c) c in
  let on_row (r : row) : row :=
    row_set_cells (on_cell <$> row_cells r) r in
  let on_table (t : table) : table :=
    table_set_rows (on_row <$> t_rows t) t in
  doc_set_tables (on_table <$> d_tables doc)
    (doc_set_paragraphs
       (replace_placeholder placeholder bank_name <$> d_paragraphs doc) doc).

(** [header_row_height or Pt(tmpl_size + 6)]. *)
Definition row_height_or_default (bl : template_baseline) : Z :=
  if truthy_int (header_row_height bl)
  then default 0%Z (header_row_height bl)
  else Pt (tmpl_size bl + 6).

Definition style_header_cell (bl : template_baseline) (c : cell) : cell :=
  let c :=
    cell_set_paragraphs
      (_apply_paragraph_style (c_paragraphs c)
         (tmpl_font bl) (tmpl_size bl) (header_spacing bl)) c in
  let c :=
    cell_set_paragraphs
      ((λ p, par_set_runs (run_set_bold (Some true) <$> p_runs p) p)
         <$> c_paragraphs c) c in
  _set_cell_margins c 36 36 36 36.

Definition style_header_row (bl : template_baseline) (header_row : row)
  : row :=
  let header_row :=
    row_set_cells (style_header_cell bl <$> row_cells header_row) header_row in
  let header_row := row_set_height_rule (Some HeightAtLeast) header_row in
  row_set_height (Some (row_height_or_default bl)) header_row.

(** [row.cells[i].text = text]. *)
Definition set_cell_text_at (i : nat) (text : string) (r : row) : result row :=
  c ← item (row_cells r) i;
  Ok (row_set_cells (<[i := set_cell_text text c]> (row_cells r)) r).

Definition style_account_cell (bl : template_baseline) (c : cell) : cell :=
  let c :=
    cell_set_paragraphs
      (_apply_paragraph_style (c_paragraphs c)
         (tmpl_font bl) (tmpl_size bl) (header_spacing bl)) c in
  let c := _set_cell_borders c in
  _set_cell_margins c 36 36 36 36.

(** [header_widths[idx] if idx < len(header_widths) else None]. *)
Definition width_at (widths : list (option Z)) (idx : nat) : option Z :=
  if (idx <? length widths)%nat then mjoin (widths !! idx) else None.

(** The body of [for account in accounts]: the row appended for one
    account. *)
Definition account_row (bl : template_baseline) (t : table)
    (account : Grouping.account) : result row :=
  let row := new_row t in
  row ← set_cell_text_at 0 (Grouping.account_no account) row;
  row ← set_cell_text_at 1 (Grouping.account_name account) row;
  row ← set_cell_text_at 2 (Grouping.ifsc account) row;
  let row := row_set_cells (style_account_cell bl <$> row_cells row) row in
  let row :=
    match header_widths bl with
    | Some (w :: ws) =>
        row_set_cells
          (imap (λ idx c, _set_cell_width c (width_at (w :: ws) idx))
             (row_cells row)) row
    | _ => row
    end in
  let row := row_set_height_rule (Some HeightAtLeast) row in
  Ok (row_set_height (Some (row_height_or_default bl)) row).

(** [table.style = 'Table Grid'] under [try]/[except: pass]. *)
Definition try_set_table_grid (styles : gmap string style_type) (t : table)
  : table :=
  match styles !! "Table Grid" with
  | Some TableStyle => table_set_style (Some "Table Grid") t
  | _ => t
  end.

(** The body of the accounts-table branch. *)
Definition regenerate_table (bl : template_baseline)
    (styles : gmap string style_type) (accounts : list Grouping.account)
    (t : table) : result table :=
  header_row ← item (t_rows t) 0;
  let rows := <[0 := style_header_row bl header_row]> (t_rows t) in
  let rows_to_delete := (length rows - 1)%nat in
  let rows := Nat.iter rows_to_delete (@removelast row) rows in
  rows ← for_each
           (λ rows account, row ← account_row bl t account; Ok (rows ++ [row]))
           accounts rows;
  let t := table_set_rows rows t in
  let t := try_set_table_grid styles t in
  Ok (_set_table_borders t).

(** The loop that finds the accounts table: the first matching table
    is regenerated and the loop stops. *)
Fixpoint update_accounts_table (bl : template_baseline)
    (styles : gmap string style_type) (accounts : list Grouping.account)
    (tables : list table) : result (list table) :=
  match tables with
  | [] => Ok []
  | t :: rest =>
      found ← is_accounts_table t;
      if found : bool then
        t' ← regenerate_table bl styles accounts t;
        Ok (t' :: rest)
      else
        rest' ← update_accounts_table bl styles accounts rest;
        Ok (t :: rest')
  end.

(** One iteration of [for i, paragraph in enumerate(doc.paragraphs)]
    of the nodal-officer step, on the paragraphs as they are then. *)
Definition nodal_paragraph_visit (bank_name : string) (nb : nodal_baseline)
    (styles : gmap string style_type) (ps : list paragraph) (i : nat)
  : list paragraph :=
  match ps !! i with
  | Some p =>
      if is_nodal (paragraph_text p) && (i + 1 <? length ps)%nat
      then alter (λ next_p,
                    _apply_baseline_to_paragraph next_p bank_name nb styles)
             (i + 1)%nat ps
      else ps
  | None => ps
  end.

Definition nodal_paragraphs (bank_name : string) (nb : nodal_baseline)
    (styles : gmap string style_type) (ps : list paragraph)
  : list paragraph :=
  foldl (nodal_paragraph_visit bank_name nb styles) ps (seq 0 (length ps)).

(** [for p in target_cell.paragraphs:
      _apply_baseline_to_paragraph(p, bank_name, nodal_baseline, doc)]. *)
Definition apply_baseline_to_cell (bank_name : string) (nb : nodal_baseline)
    (styles : gmap string style_type) (target_cell : cell) : cell :=
  cell_set_paragraphs
    ((λ p, _apply_baseline_to_paragraph p bank_name nb styles)
       <$> c_paragraphs target_cell) target_cell.

(** One iteration of the inner loop over [enumerate(row.cells)] of the
    nodal-officer step for tables. *)
Definition nodal_cell_visit (bank_name : string) (nb : nodal_baseline)
    (styles : gmap string style_type) (r_idx : nat) (rows : list row)
    (c_idx : nat) : result (list row) :=
  c ← table_cell rows r_idx c_idx;
  if is_nodal (cell_text c) && (r_idx + 1 <? length rows)%nat then
    target_cell ← table_cell rows (r_idx + 1) c_idx;
    let target_cell := apply_baseline_to_cell bank_name nb styles target_cell in
    Ok (alter (λ r, row_set_cells (<[c_idx := target_cell]> (row_cells r)) r)
          (r_idx + 1)%nat rows)
  else Ok rows.

Definition nodal_row_visit (bank_name : string) (nb : nodal_baseline)
    (styles : gmap string style_type) (rows : list row) (r_idx : nat)
  : result (list row) :=
  r ← item rows r_idx;
  for_each (nodal_cell_visit bank_name nb styles r_idx)
    (seq 0 (length (row_cells r))) rows.

Definition nodal_cells (bank_name : string) (nb : nodal_baseline)
    (styles : gmap string style_type) (t : table) : result table :=
  rows ← for_each (nodal_row_visit bank_name nb styles)
           (seq 0 (length (t_rows t))) (t_rows t);
  Ok (table_set_rows rows t).

(** [for table in doc.tables] of the nodal-officer step. *)
Fixpoint nodal_tables (bank_name : string) (nb : nodal_baseline)
    (styles : gmap string style_type) (tables : list table)
  : result (list table) :=
  match tables with
  | [] => Ok []
  | t :: rest =>
      t' ← nodal_cells bank_name nb styles t;
      rest' ← nodal_tables bank_name nb styles rest;
      Ok (t' :: rest')
  end.

(** The [try] body between [Document(template_file)] and
    [doc.save(output_file)], split after the replacement loops and after
    the accounts-table loop. *)
Definition after_replacement (doc : document) (bank_name placeholder tone : string)
  : document :=
  replace_in_document placeholder bank_name (_apply_tone doc tone None None).

Definition after_accounts_table (doc : document) (bank_name : string)
    (accounts : list Grouping.account) (placeholder tone font_name : string)
    (font_size : Z) : result (template_baseline * document) :=
  bl ← _extract_template_baseline doc font_name font_size;
  let doc := after_replacement doc bank_name placeholder tone in
  tables ← update_accounts_table bl (d_styles doc) accounts (d_tables doc);
  Ok (bl, doc_set_tables tables doc).

Definition update_document (doc : document) (bank_name : string)
    (accounts : list Grouping.account) (placeholder tone font_name : string)
    (font_size : Z) : result document :=
  '(bl, doc) ← after_accounts_table doc bank_name accounts placeholder tone
                 font_name font_size;
  let nb := _extract_nodal_baseline doc (tmpl_font bl) (tmpl_size bl) in
  let doc :=
    doc_set_paragraphs
      (nodal_paragraphs bank_name nb (d_styles doc) (d_paragraphs doc)) doc in
  tables ← nodal_tables bank_name nb (d_styles doc) (d_tables doc);
  Ok (doc_set_tables tables doc).

(** The files the function touches: opening a template and saving a
    document either succeed or raise. *)
Record world : Type := mk_world {
  open_document : string → result document;
  save_document : string → document → result unit;
}.

Definition update_word_template (w : world) (template_file output_file : string)
    (bank_name : string) (accounts : list Grouping.account)
    (placeholder tone font_name : string) (font_size : Z) : bool :=
  let attempt : result unit :=
    doc ← open_document w template_file;
    doc ← update_document doc bank_name accounts placeholder tone
            font_name font_size;
    save_document w output_file doc in
  match attempt with
  | Ok _ => true
  | Raise _ => false
  end.

End Notice.

(** ** The batch loop of [main] *)

Module Batch.

Fixpoint ends_with_slash (s : string) : bool :=
  match s with
  | EmptyString => false
  | String c EmptyString => Ascii.eqb c "/"%char
  | String _ s' => ends_with_slash s'
  end.

(** [os.path.join(a, b)] on POSIX, for a relative [b]. *)
Definition path_join (a b : string) : string :=
  if PyStr.is_empty a || ends_with_slash a then a +:+ b
  else a +:+ "/" +:+ b.

Record args : Type := mk_args {
  template_file : string;
  output_dir : string;
  placeholder : string;
  tone : string;
  font_name : string;
  font_size : Z;
}.

(** What the loop reports for one group: the "Saved" or "Failed" line. *)
Record report : Type := mk_report {
  rep_ifsc : string;
  rep_output_file : string;
  rep_saved : bool;
}.

Record progress : Type := mk_progress {
  success_count : nat;
  reports : list report;
}.

Definition output_file_for (a : args) (bank_name ifsc : string) : string :=
  path_join (output_dir a)
    ("Notice_" +:+ PyStr.replace " " "_" bank_name +:+ "_" +:+ ifsc +:+ ".docx").

(** The body of [for ifsc, accounts in grouped_data.items()]. *)
Definition notice_for_group (w : Notice.world) (a : args) (st : progress)
    (group : string * list Grouping.account) : progress :=
  let '(ifsc, accounts) := group in
  let bank_name := Ifsc.get_bank_name (Some ifsc) in
  let output_file := output_file_for a bank_name ifsc in
  if Notice.update_word_template w (template_file a) output_file bank_name
       accounts (placeholder a) (tone a) (font_name a) (font_size a)
  then mk_progress (success_count st + 1)
         (reports st ++ [mk_report ifsc output_file true])
  else mk_progress (success_count st)
         (reports st ++ [mk_report ifsc output_file false]).

Definition generate_notices (w : Notice.world) (a : args)
    (grouped_data : Grouping.groups) : progress :=
  foldl (notice_for_group w a) (mk_progress 0 []) grouped_data.

(** The report the loop body produces for one group, on its own. *)
Definition report_for (w : Notice.world) (a : args)
    (group : string * list Grouping.account) : report :=
  let bank_name := Ifsc.get_bank_name (Some group.1) in
  let output_file := output_file_for a bank_name group.1 in
  mk_report group.1 output_file
    (Notice.update_word_template w (template_file a) output_file bank_name
       group.2 (placeholder a) (tone a) (font_name a) (font_size a)).

Definition saved_count (rs : list report) : nat :=
  sum_list ((λ r, if rep_saved r then 1 else 0) <$> rs).

Definition failed_count (rs : list report) : nat :=
  sum_list ((λ r, if rep_saved r then 0 else 1) <$> rs).

End Batch.

(** ** Concrete documents used by the examples below *)

Module Examples.
Import Docx.

Definition text_paragraph (text : string) : paragraph :=
  new_paragraph [new_run text].

(** Two paragraphs, "ur" and "gent". *)
Definition two_fragments : document :=
  mk_document [text_paragraph "ur"; text_paragraph "gent"] [] ∅.

Definition final_notice_doc : document :=
  mk_document [text_paragraph "FINAL NOTICE to the account holder"] [] ∅.

(** One paragraph of two runs: the first names a font without a size,
    the second names another font and a size. *)
Definition two_fonts_doc : document :=
  mk_document
    [new_paragraph
       [mk_run "Dear " (Some "Arial") None None None;
        mk_run "Sir" (Some "Times New Roman") (Some (Pt 12)) None None]]
    [] ∅.

Definition plain_template : document :=
  mk_document [text_paragraph "To the manager, ICICI BANK"] [] ∅.

(** A world in which the template opens and every file can be saved
    except the notice for HDFC0000001. *)
Definition hdfc_unwritable : Notice.world :=
  Notice.mk_world
    (λ _, Ok plain_template)
    (λ output_file _,
       if String.eqb output_file "out/Notice_HDFC_BANK_HDFC0000001.docx"
       then Raise IOError else Ok tt).

Definition batch_args : Batch.args :=
  Batch.mk_args "template.docx" "out" "ICICI BANK" "formal" "Bookman Old Style" 8.

Definition three_groups : Grouping.groups :=
  [ ("SBIN0001234", [Grouping.mk_account "1" "A" "SBIN0001234"]);
    ("HDFC0000001", [Grouping.mk_account "2" "B" "HDFC0000001"]);
    ("ZZZZ0000001", [Grouping.mk_account "3" "C" "ZZZZ0000001"]) ].

Definition text_cell (text : string) : cell :=
  mk_cell [text_paragraph text] None [] [] None.

Definition text_row (texts : list string) : row :=
  mk_table_row (text_cell <$> texts) None None.

(** A three-column accounts table: the header and two rows left over
    in the template. *)
Definition accounts_table : table :=
  mk_table [None; None; None]
    [ text_row ["Account No"; "Account Name"; "IFSC"];
      text_row ["0001"; "Old holder"; "ICIC0000001"];
      text_row ["0002"; "Other holder"; "ICIC0000002"] ]
    None None [].

Definition one_table_doc : document :=
  mk_document [text_paragraph "To the manager, ICICI BANK"] [accounts_table] ∅.


Definition one_account : list Grouping.account :=
  [Grouping.mk_account "1001" "Asha Rao" "SBIN0001234"].


(** Two labelled paragraphs in a row, then a third paragraph. *)
Definition two_labels_doc : document :=
  mk_document
    [ text_paragraph "Nodal Officer";
      text_paragraph "Nodal Officer (alternate)";
      text_paragraph "To be advised" ]
    [] ∅.



End Examples.

(** ** Reading the sheet ([read_excel_data]) *)

Module Sheet.

(** [s.endswith(suffix)]. *)
Fixpoint endswith (suffix s : string) : bool :=
  String.eqb suffix s
  || match s with
     | EmptyString => false
     | String _ s' => endswith suffix s'
     end.

(** The three tests of the column loop, on the lowercased column name,
    as the [if]/[elif] chain writes them. *)
Definition is_account_column (col_lower : string) : bool :=
  ((PyStr.contains "account" col_lower
    && (PyStr.contains "number" col_lower
        || PyStr.contains "no" col_lower
        || PyStr.contains "#" col_lower))
   || (PyStr.contains "a/c" col_lower
       || PyStr.contains "ac no" col_lower
       || PyStr.contains "acc no" col_lower
       || PyStr.contains "acno" col_lower))
  && negb (PyStr.contains "name" col_lower).

Definition is_name_column (col_lower : string) : bool :=
  (PyStr.contains "account" col_lower && PyStr.contains "name" col_lower)
  || (PyStr.contains "name" col_lower
      && (PyStr.contains "beneficiary" col_lower
          || PyStr.contains "holder" col_lower))
  || (PyStr.contains "account" col_lower && PyStr.contains "holder" col_lower).

Definition is_ifsc_column (col_lower : string) : bool :=
  PyStr.contains "ifsc" col_lower.

Record roles : Type := mk_roles {
  account_col : option string;
  name_col : option string;
  ifsc_col : option string;
}.

(** [x or col]. *)
Definition or_col (x : option string) (col : string) : option string :=
  if Ifsc.truthy x then x else Some col.

(** The body of [for col in df.columns]. *)
Definition assign_column (r : roles) (col : string) : roles :=
  let col_lower := PyStr.lower col in
  if is_account_column col_lower
  then mk_roles (or_col (account_col r) col) (name_col r) (ifsc_col r)
  else if is_name_column col_lower
  then mk_roles (account_col r) (or_col (name_col r) col) (ifsc_col r)
  else if is_ifsc_column col_lower
  then mk_roles (account_col r) (name_col r) (or_col (ifsc_col r) col)
  else r.

Definition find_columns (columns : list string) : roles :=
  foldl assign_column (mk_roles None None None) columns.

(** A role variable during the loop: still [None], or a name that
    [x or col] keeps. *)
Definition settled (x : option string) : Prop := x = None ∨ Ifsc.truthy x = true.

(** [all([account_col, name_col, ifsc_col])]. *)
Definition all_found (r : roles) : bool :=
  Ifsc.truthy (account_col r) && Ifsc.truthy (name_col r)
  && Ifsc.truthy (ifsc_col r).

(** A data frame as the function uses it: the column names as read, and
    per row the text [str(row[col])] of the cell under a (stripped)
    column name. *)
Record frame : Type := mk_frame {
  df_columns : list string;
  df_rows : list (string → string);
}.

(** The two readers: each returns a frame or raises. *)
Record readers : Type := mk_readers {
  read_csv : string → result frame;
  read_excel : string → result frame;
}.

(** The role of a column name, by the precedence of the chain. *)
Inductive role : Type := AccountNumber | AccountName | IfscCode | NoRole.

Definition role_of (col : string) : role :=
  let col_lower := PyStr.lower col in
  if is_account_column col_lower then AccountNumber
  else if is_name_column col_lower then AccountName
  else if is_ifsc_column col_lower then IfscCode
  else NoRole.

#[global] Instance role_eq_dec : EqDecision role.
Proof. solve_decision. Defined.

(** The first column with a given role. *)
Definition first_with_role (r : role) (columns : list string) : option string :=
  snd <$> list_find (λ col, role_of col = r) columns.

(** The rows handed to the grouping loop, once the columns are known. *)
Definition rows_of (df : frame) (account name ifsc : string)
  : list Grouping.row :=
  (λ row, Grouping.mk_row (row account) (row name) (row ifsc)) <$> df_rows df.

Definition read_excel_data (rd : readers) (excel_file : string)
  : option Grouping.groups :=
  let attempt : result (option Grouping.groups) :=
    df ← (if endswith ".csv" (PyStr.lower excel_file)
          then read_csv rd excel_file
          else read_excel rd excel_file);
    let columns := PyStr.strip <$> df_columns df in
    let r := find_columns columns in
    if negb (all_found r) then Ok None
    else
      st ← Grouping.group_rows
             (rows_of df (default "" (account_col r)) (default "" (name_col r))
                (default "" (ifsc_col r)));
      Ok (Some (Grouping.grouped st)) in
  match attempt with
  | Ok grouped => grouped
  | Raise _ => None
  end.

End Sheet.

(** ** [main] *)

Module Main.

Record cli : Type := mk_cli {
  excel_file : string;
  notice_args : Batch.args;
}.

(** What [main] asks of the file system besides reading the sheet and
    handling documents. *)
Record files : Type := mk_files {
  path_exists : string → bool;
  makedirs : string → result unit;
}.

(** [not grouped_data] for the value [read_excel_data] returns. *)
Definition no_groups (g : option Grouping.groups) : bool :=
  match g with
  | None | Some [] => true
  | Some (_ :: _) => false
  end.

(** [main] after argument parsing: [Ok None] is an early return,
    [Ok (Some p)] the end of the notice loop; an exception of
    [os.makedirs] is not caught. *)
Definition main (fs : files) (rd : Sheet.readers) (w : Notice.world)
    (args : cli) : result (option Batch.progress) :=
  if negb (path_exists fs (excel_file args)) then Ok None
  else if negb (path_exists fs (Batch.template_file (notice_args args)))
  then Ok None
  else
    _ ← makedirs fs (Batch.output_dir (notice_args args));
    let grouped_data := Sheet.read_excel_data rd (excel_file args) in
    if no_groups grouped_data then Ok None
    else Ok (Some (Batch.generate_notices w (notice_args args)
                     (default [] grouped_data))).

End Main.

(** ** The result of grouping, row by row *)

Module GroupedBy.

(** The normalised code of a row, whether it passes validation, and the
    record stored for the row. *)
Definition code_of (r : Grouping.row) : string :=
  PyStr.upper (PyStr.strip (Grouping.row_ifsc r)).

Definition is_valid (k : string) : bool :=
  match Ifsc.validate_ifsc k with
  | Ok true => true
  | _ => false
  end.

Definition record_of (r : Grouping.row) : Grouping.account :=
  Grouping.mk_account (PyStr.strip (Grouping.row_account r))
    (PyStr.strip (Grouping.row_name r)) (code_of r).

(** The distinct elements of a list, in the order of their first
    occurrence. *)
Fixpoint first_seen (l : list string) : list string :=
  match l with
  | [] => []
  | x :: l' => x :: filter (λ y, y ≠ x) (first_seen l')
  end.

Definition valid_codes (rows : list Grouping.row) : list string :=
  filter (λ k, is_valid k = true) (code_of <$> rows).

Definition invalid_codes (rows : list Grouping.row) : list string :=
  filter (λ k, is_valid k = false) (code_of <$> rows).

Definition records_with (k : string) (rows : list Grouping.row)
  : list Grouping.account :=
  record_of <$> filter (λ r, code_of r = k) rows.

(** The state of the loop after the rows [seen]. *)
Definition loop_state (seen : list Grouping.row) (st : Grouping.state) : Prop :=
  Grouping.invalid_ifsc st = invalid_codes seen
  ∧ Grouping.keys (Grouping.grouped st) = first_seen (valid_codes seen)
  ∧ ∀ k, Grouping.get (Grouping.grouped st) k
         = if bool_decide (k ∈ valid_codes seen)
           then Some (records_with k seen) else None.

End GroupedBy.

(** ** More example documents *)

Module MoreExamples.
Import Docx.

(** A three-column table without any row. *)
Definition rowless_table : table :=
  mk_table [None; None; None] [] None None [].

Definition rowless_doc : document :=
  mk_document [Examples.text_paragraph "To the manager, ICICI BANK"]
    [rowless_table; Examples.accounts_table] ∅.

(** A world where this template opens and every save succeeds. *)
Definition rowless_world : Notice.world :=
  Notice.mk_world (λ _, Ok rowless_doc) (λ _ _, Ok tt).

(** A sheet with the three columns and two rows, the second with a code
    that fails validation; readers that return it for a CSV file; a file
    system where every path exists and the directory can be made. *)
Definition sample_frame : Sheet.frame :=
  Sheet.mk_frame ["Account Number"; "Account Name"; " IFSC Code "]
    [ (λ col, if String.eqb col "IFSC Code" then " hdfc0001234 "
              else if String.eqb col "Account Number" then "0001"
              else "A. Kumar");
      (λ col, if String.eqb col "IFSC Code" then "HDFC1001234"
              else if String.eqb col "Account Number" then "0002"
              else "B. Rao") ].

Definition sample_readers : Sheet.readers :=
  Sheet.mk_readers (λ _, Ok sample_frame) (λ _, Raise IOError).

Definition all_present : Main.files :=
  Main.mk_files (λ _, true) (λ _, Ok tt).

Definition sample_cli : Main.cli :=
  Main.mk_cli "accounts.csv" Examples.batch_args.

End MoreExamples.

(** ** Where the scanned font values come from *)

Module Provenance.
Import Docx.

(** Where a scanned value comes from: it is the value the scan started
    with, or it was read off one of the runs. *)
Definition name_from (rs : list run) (start found : option string) : Prop :=
  found = start
  ∨ ∃ r, r ∈ rs ∧ Notice.truthy_str (r_font_name r) = true ∧ found = r_font_name r.

Definition size_from (rs : list run) (start found : option Z) : Prop :=
  found = start
  ∨ ∃ r, r ∈ rs ∧ Notice.truthy_int (r_font_size r) = true
         ∧ found = pt_int <$> r_font_size r.

(** The first font size of at least one point, in whole points, and the
    first explicit bold setting, over a list of runs. *)
Fixpoint first_point_size (rs : list run) : option Z :=
  match rs with
  | [] => None
  | r :: rs' =>
      if Notice.truthy_int (r_font_size r)
         && Notice.truthy_int (pt_int <$> r_font_size r)
      then pt_int <$> r_font_size r
      else first_point_size rs'
  end.

Fixpoint first_bold (rs : list run) : option bool :=
  match rs with
  | [] => None
  | r :: rs' =>
      match r_bold r with
      | Some b => Some b
      | None => first_bold rs'
      end
  end.

End Provenance.

(** ** Tables without merged cells *)

Module Shape.
Import Docx.


(** A table without the three grid columns of an accounts table. *)
Definition narrow_table : table :=
  mk_table [None; None]
    [Examples.text_row ["Account No"; "IFSC"]] None None [].

(** A world where a template with one accounts table opens and every
    save succeeds. *)
Definition one_table_world : Notice.world :=
  Notice.mk_world (λ _, Ok Examples.one_table_doc) (λ _ _, Ok tt).

End Shape.

(** * Verification *)

(** ** Facts about the string primitives *)

Section StringFacts.
Import PyStr.

Lemma get_lt_is_Some (s : string) (i : nat) :
  i < String.length s → ∃ c, String.get i s = Some c.
Proof.
  revert i. induction s as [|a s IH]; intros i Hi; simpl in *; [lia|].
  destruct i as [|i]; [eauto|]. apply IH. lia.
Qed.

Lemma get_Some_lt (s : string) (i : nat) (c : ascii) :
  String.get i s = Some c → i < String.length s.
Proof.
  revert i. induction s as [|a s IH]; intros i Hi; simpl in *; [done|].
  destruct i as [|i]; [lia|]. apply IH in Hi. lia.
Qed.

Lemma all_chars_get (p : ascii → bool) (s : string) :
  all_chars p s = true ↔ ∀ i c, String.get i s = Some c → p c = true.
Proof.
  induction s as [|a s IH]; simpl.
  - split; [intros _ i c Hc; destruct i; discriminate | done].
  - rewrite andb_true_iff, IH. split.
    + intros [Ha Hs] [|i] c Hc; simpl in Hc; [by simplify_eq | eauto].
    + intros H. split; [apply (H 0); done | intros i c Hc; apply (H (S i)); done].
Qed.

Lemma get_slice_to (n i : nat) (s : string) :
  String.get i (slice_to n s) = if (i <? n)%nat then String.get i s else None.
Proof.
  revert i s. induction n as [|n IH]; intros i s.
  - simpl. by destruct i, s.
  - destruct s as [|a s]; simpl; [by destruct i; destruct (_ <? _)%nat|].
    destruct i as [|i]; [done|]. simpl. rewrite IH.
    by destruct (Nat.ltb_spec i n), (Nat.ltb_spec (S i) (S n)); try lia.
Qed.

Lemma get_slice_from (n i : nat) (s : string) :
  String.get i (slice_from n s) = String.get (n + i) s.
Proof.
  revert s. induction n as [|n IH]; intros s; [by destruct s|].
  destruct s as [|a s]; simpl; [by destruct i|]. apply IH.
Qed.

Lemma slice_to_is_empty (n : nat) (s : string) :
  is_empty (slice_to n s) = true ↔ n = 0 ∨ String.length s = 0.
Proof. destruct n, s; simpl; split; intros; try done; auto; by intuition. Qed.

Lemma slice_from_is_empty (n : nat) (s : string) :
  is_empty (slice_from n s) = true ↔ String.length s ≤ n.
Proof.
  revert s. induction n as [|n IH]; intros [|a s]; simpl;
    try (split; intros; try done; lia).
  rewrite IH. lia.
Qed.

End StringFacts.

(** ** IFSC validation and bank names *)

Section IfscFacts.
Import PyStr Ifsc.

Lemma validate_ifsc_wrong_length (s : string) :
  String.length s ≠ 11 → validate_ifsc s = Ok false.
Proof.
  intros H. unfold validate_ifsc.
  by destruct (Nat.eqb_spec (String.length s) 11).
Qed.

Lemma isalpha_prefix (s : string) :
  String.length s = 11 →
  isalpha (slice_to 4 s) = true
  ↔ ∀ i c, i < 4 → String.get i s = Some c → isalpha_char c = true.
Proof.
  intros Hlen. unfold isalpha. rewrite andb_true_iff, negb_true_iff, all_chars_get.
  assert (is_empty (slice_to 4 s) = false) as ->.
  { apply not_true_is_false. rewrite slice_to_is_empty. lia. }
  split.
  - intros [_ H] i c Hi Hc. apply (H i). rewrite get_slice_to.
    by destruct (Nat.ltb_spec i 4); [|lia].
  - intros H. split; [done|]. intros i c. rewrite get_slice_to.
    destruct (Nat.ltb_spec i 4); [eauto | done].
Qed.

Lemma isalnum_suffix (s : string) :
  String.length s = 11 →
  isalnum (slice_from 5 s) = true
  ↔ ∀ i c, 5 ≤ i < 11 → String.get i s = Some c → isalnum_char c = true.
Proof.
  intros Hlen. unfold isalnum. rewrite andb_true_iff, negb_true_iff, all_chars_get.
  assert (is_empty (slice_from 5 s) = false) as ->.
  { apply not_true_is_false. rewrite slice_from_is_empty. lia. }
  split.
  - intros [_ H] i c Hi Hc. apply (H (i - 5)). rewrite get_slice_from.
    by replace (5 + (i - 5)) with i by lia.
  - intros H. split; [done|]. intros i c. rewrite get_slice_from.
    intros Hc. apply (H (5 + i)); [|done]. apply get_Some_lt in Hc. lia.
Qed.

Lemma validate_ifsc_outcome (s : string) :
  ∃ b, validate_ifsc s = Ok b ∧ (b = true ↔ well_formed_ifsc s).
Proof.
  unfold well_formed_ifsc.
  destruct (decide (String.length s = 11)) as [Hlen|Hlen].
  2: { exists false. split; [by apply validate_ifsc_wrong_length|].
       split; [done | by intros [? _]]. }
  unfold validate_ifsc. rewrite Hlen, Nat.eqb_refl.
  destruct (get_lt_is_Some s 4 ltac:(lia)) as [c4 Hc4].
  unfold index. rewrite Hc4. cbn [negb mbind result_bind].
  pose proof (isalpha_prefix s Hlen) as Ha.
  pose proof (isalnum_suffix s Hlen) as Hn.
  destruct (isalpha (slice_to 4 s)); cbn [negb].
  2: { exists false. split; [done|]. split; [done|].
       intros (_ & H & _). apply Ha in H. done. }
  destruct (Ascii.eqb_spec c4 "0"%char) as [->|Hne]; cbn [negb].
  2: { exists false. split; [done|]. split; [done|].
       intros (_ & _ & H & _). congruence. }
  destruct (isalnum (slice_from 5 s)); cbn [negb].
  2: { exists false. split; [done|]. split; [done|].
       intros (_ & _ & _ & H). apply Hn in H. done. }
  exists true. split; [done|]. split; [|done]. intros _.
  split_and!; [done | by apply Ha | done | by apply Hn].
Qed.

End IfscFacts.

Section IfscProperties.
Import PyStr Ifsc.

(** C2. For every string [s], [validate_ifsc s] returns a boolean
    without raising; it returns [True] exactly when [s] has length 11,
    its characters 0..3 are alphabetic, its character 4 is the digit
    zero and its characters 5..10 are alphanumeric; and it returns
    [False] for every string whose length is not 11. *)
Theorem validate_ifsc_correct (s : string) :
  (∃ b, validate_ifsc s = Ok b)
  ∧ (validate_ifsc s = Ok true ↔ well_formed_ifsc s)
  ∧ (String.length s ≠ 11 → validate_ifsc s = Ok false).
Proof.
  destruct (validate_ifsc_outcome s) as (b & Hb & Hiff).
  split_and!; [by exists b | | apply validate_ifsc_wrong_length].
  rewrite Hb, <- Hiff. split; [by intros [= ->] | by intros ->].
Qed.

Lemma validate_ifsc_correct_witness :
  validate_ifsc "SBIN0001234" = Ok true ∧ validate_ifsc "SBIN001234" = Ok false.
Proof.
  split.
  - apply (validate_ifsc_correct "SBIN0001234"). split_and!; [done | | done | ].
    + intros i c Hi. do 4 (destruct i as [|i]; [by intros [= <-]|]). lia.
    + intros i c Hi. do 11 (destruct i as [|i]; [first [lia | by intros [= <-]]|]). lia.
  - by apply (validate_ifsc_correct "SBIN001234").
Defined.

Lemma bank_names_nonempty (k name : string) :
  IFSC_BANK_MAP !! k = Some name → is_empty name = false.
Proof.
  unfold IFSC_BANK_MAP. intros H. apply elem_of_list_to_map_2 in H.
  match type of H with
  | _ ∈ ?l => assert (Forall (λ kv : string * string, is_empty kv.2 = false) l) as Hall
  end.
  { repeat constructor. }
  rewrite Forall_forall in Hall. apply (Hall _ H).
Qed.

(** C8. [get_bank_name] returns "UNKNOWN BANK (<code>)" for a code
    that is [None], empty or shorter than four characters; for a
    longer code it looks up the uppercased first four characters in
    [IFSC_BANK_MAP], returning the mapped name on a hit and
    "<PREFIX> BANK" on a miss; the three documented examples hold. *)
Theorem get_bank_name_correct :
  (∀ code : option string,
     (code = None ∨ ∃ s, code = Some s ∧ String.length s < 4) →
     get_bank_name code = "UNKNOWN BANK (" +:+ fmt code +:+ ")")
  ∧ (∀ s name : string,
       4 ≤ String.length s →
       IFSC_BANK_MAP !! upper (slice_to 4 s) = Some name →
       get_bank_name (Some s) = name)
  ∧ (∀ s : string,
       4 ≤ String.length s →
       IFSC_BANK_MAP !! upper (slice_to 4 s) = None →
       get_bank_name (Some s) = upper (slice_to 4 s) +:+ " BANK")
  ∧ get_bank_name (Some "SBIN0001234") = "STATE BANK OF INDIA"
  ∧ get_bank_name (Some "ZZZZ0000001") = "ZZZZ BANK"
  ∧ get_bank_name (Some "") = "UNKNOWN BANK ()".
Proof.
  split_and!.
  - intros code [->|(s & -> & Hs)]; [done|].
    unfold get_bank_name. apply Nat.ltb_lt in Hs. rewrite Hs.
    by rewrite orb_true_r.
  - intros s name Hs Hk. unfold get_bank_name.
    assert (truthy (Some s) = true) as ->.
    { destruct s; [simpl in Hs; lia | done]. }
    apply Nat.ltb_ge in Hs. rewrite Hs. cbn [negb orb]. rewrite Hk.
    cbn [truthy fmt]. by rewrite (bank_names_nonempty _ _ Hk).
  - intros s Hs Hk. unfold get_bank_name.
    assert (truthy (Some s) = true) as ->.
    { destruct s; [simpl in Hs; lia | done]. }
    apply Nat.ltb_ge in Hs. rewrite Hs. cbn [negb orb]. by rewrite Hk.
  - by vm_compute.
  - by vm_compute.
  - by vm_compute.
Qed.

End IfscProperties.

(** ** Grouping *)

Section GroupingFacts.
Import PyStr Ifsc Grouping.

Lemma keys_append_to (k : string) (a : account) (g : groups) :
  keys (append_to k a g) = if bool_decide (k ∈ keys g) then keys g else keys g ++ [k].
Proof.
  unfold keys. induction g as [|[k' v] g IH]; [done|].
  cbn [append_to]. destruct (String.eqb_spec k' k) as [->|Hne]; rewrite !fmap_cons; cbn [fst].
  - rewrite bool_decide_eq_true_2; [done | left].
  - rewrite IH. destruct (decide (k ∈ g.*1)) as [Hin|Hin].
    + rewrite !bool_decide_eq_true_2; [done | by right | done].
    + rewrite !bool_decide_eq_false_2; [done | | done].
      intros [?|?]%elem_of_cons; congruence.
Qed.

Lemma NoDup_keys_append_to (k : string) (a : account) (g : groups) :
  NoDup (keys g) → NoDup (keys (append_to k a g)).
Proof.
  intros Hnd. rewrite keys_append_to. case_bool_decide; [done|].
  apply NoDup_app. split_and!; [done | | apply NoDup_singleton].
  intros x Hx ->%list_elem_of_singleton. done.
Qed.

Lemma total_accounts_append_to (k : string) (a : account) (g : groups) :
  total_accounts (append_to k a g) = S (total_accounts g).
Proof.
  unfold total_accounts. induction g as [|[k' v] g IH]; [done|].
  cbn [append_to]. destruct (String.eqb_spec k' k) as [->|Hne];
    rewrite !fmap_cons; cbn [snd sum_list sum_list_with].
  - rewrite length_app. simpl. lia.
  - rewrite IH. lia.
Qed.

Lemma Forall_append_to (Q : string → list account → Prop) (k : string)
    (a : account) (g : groups) :
  Forall (λ kv, Q kv.1 kv.2) g →
  Q k [a] →
  (∀ v, Q k v → Q k (v ++ [a])) →
  Forall (λ kv, Q kv.1 kv.2) (append_to k a g).
Proof.
  intros Hg Hnew Hext. induction Hg as [|[k' v] g Hkv Hg IH]; simpl.
  - by constructor.
  - cbn [fst snd] in Hkv.
    destruct (String.eqb_spec k' k) as [->|Hne]; constructor; cbn [fst snd]; auto.
Qed.

Lemma group_ok_mono (seen seen' : list row) (k : string) (v : list account) :
  seen ⊆ seen' → group_ok seen k v → group_ok seen' k v.
Proof.
  intros Hsub (Hk & Hv & Hall). split_and!; [done..|].
  eapply Forall_impl; [exact Hall|]. intros a (? & r & ? & ?). eauto.
Qed.

Lemma group_row_inv (seen : list row) (st : state) (r : row) :
  grouping_inv seen st →
  ∃ st', group_row st r = Ok st' ∧ grouping_inv (seen ++ [r]) st'.
Proof.
  intros (Hall & Hnd & Hcount). unfold group_row.
  set (k := upper (strip (row_ifsc r))).
  assert (Forall (λ kv, group_ok (seen ++ [r]) kv.1 kv.2) (grouped st)) as Hall'.
  { eapply Forall_impl; [exact Hall|]. intros kv.
    apply group_ok_mono. set_solver. }
  destruct (validate_ifsc_outcome k) as (b & Hb & _). rewrite Hb.
  cbn [mbind result_bind]. destruct b; cbn [negb].
  - eexists. split; [done|]. split_and!; cbn [grouped invalid_ifsc].
    + apply (Forall_append_to (group_ok (seen ++ [r]))); [done | |].
      * split_and!; [done | done |]. constructor; [|constructor].
        split; [done|]. exists r. split; [set_solver | done].
      * intros v (? & ? & Hv). split_and!; [done | by destruct v |].
        apply Forall_app. split; [done|]. constructor; [|constructor].
        split; [done|]. exists r. split; [set_solver | done].
    + by apply NoDup_keys_append_to.
    + rewrite total_accounts_append_to, length_app. simpl. lia.
  - eexists. split; [done|]. split_and!; cbn [grouped invalid_ifsc]; [done..|].
    rewrite !length_app. simpl. lia.
Qed.

Lemma for_each_group_row_inv (rows seen : list row) (st : state) :
  grouping_inv seen st →
  ∃ st', for_each group_row rows st = Ok st' ∧ grouping_inv (seen ++ rows) st'.
Proof.
  revert seen st. induction rows as [|r rows IH]; intros seen st Hinv; simpl.
  - exists st. by rewrite app_nil_r.
  - destruct (group_row_inv seen st r Hinv) as (st1 & -> & Hinv1).
    cbn [mbind result_bind].
    destruct (IH _ _ Hinv1) as (st2 & -> & Hinv2).
    exists st2. split; [done|]. by rewrite <- app_assoc in Hinv2.
Qed.

Lemma group_rows_inv (rows : list row) :
  ∃ st, group_rows rows = Ok st ∧ grouping_inv rows st.
Proof.
  apply (for_each_group_row_inv rows [] (mk_state [] [])).
  split_and!; [constructor | constructor | done].
Qed.

(** C5. For every list of rows the grouping loop ends without raising,
    with a mapping (distinct keys) in which every key is accepted by
    [validate_ifsc] and no key holds an empty list, and the number of
    collected invalid codes plus the number of grouped records is the
    number of rows. *)
Theorem group_rows_partition (rows : list row) :
  ∃ st,
    group_rows rows = Ok st
    ∧ NoDup (keys (grouped st))
    ∧ (∀ k v, (k, v) ∈ grouped st → validate_ifsc k = Ok true ∧ v ≠ [])
    ∧ length (invalid_ifsc st) + total_accounts (grouped st) = length rows.
Proof.
  destruct (group_rows_inv rows) as (st & Hst & Hall & Hnd & Hcount).
  exists st. split_and!; [done..| |done].
  intros k v Hkv. rewrite Forall_forall in Hall.
  destruct (Hall _ Hkv) as (? & ? & _). done.
Qed.

(** C10. In the result of the grouping loop every record stored under
    a key has that key as its [ifsc] field, and comes from an input
    row whose IFSC cell, stripped of surrounding whitespace and then
    uppercased, is that key. *)
Theorem group_rows_keys_normalized (rows : list row) (st : state)
    (k : string) (v : list account) (a : account) :
  group_rows rows = Ok st →
  (k, v) ∈ grouped st →
  a ∈ v →
  ifsc a = k
  ∧ ∃ r, r ∈ rows
         ∧ k = upper (strip (row_ifsc r))
         ∧ a = mk_account (strip (row_account r)) (strip (row_name r)) k.
Proof.
  intros Hst Hkv Ha.
  destruct (group_rows_inv rows) as (st' & Hst' & Hall & _).
  rewrite Hst in Hst'. injection Hst' as <-.
  rewrite Forall_forall in Hall. destruct (Hall _ Hkv) as (_ & _ & Hv).
  rewrite Forall_forall in Hv. destruct (Hv _ Ha) as (Hk & r & Hr & Hk' & Ha').
  eauto 6.
Qed.

Lemma group_rows_keys_normalized_witness :
  ifsc (mk_account "12" "Asha" "SBIN0001234") = "SBIN0001234"
  ∧ ∃ r, r ∈ [mk_row " 12" "Asha " " sbin0001234 "]
         ∧ "SBIN0001234" = upper (strip (row_ifsc r))
         ∧ mk_account "12" "Asha" "SBIN0001234"
           = mk_account (strip (row_account r)) (strip (row_name r)) "SBIN0001234".
Proof.
  apply (group_rows_keys_normalized
           [mk_row " 12" "Asha " " sbin0001234 "]
           (mk_state [("SBIN0001234", [mk_account "12" "Asha" "SBIN0001234"])] [])
           "SBIN0001234" [mk_account "12" "Asha" "SBIN0001234"]).
  - reflexivity.
  - constructor.
  - constructor.
Defined.

End GroupingFacts.

(** ** Tone resolution *)

Section ToneFacts.
Import PyStr Docx Notice Examples.

Lemma detect_tone_joined (doc : document) :
  _detect_tone doc = tone_of_text (joined_text doc).
Proof. reflexivity. Qed.

(** C7, as stated, fails: for the paragraphs "ur" and "gent" the
    lowercased concatenation is "urgent", which contains an urgent
    keyword, but the program scans "ur gent" and resolves [auto] to
    formal. *)
Lemma tone_concatenation_counterexample :
  tone_of_text (concatenated_text two_fragments) = "urgent"
  ∧ resolve_tone two_fragments "auto" = "formal".
Proof. split; reflexivity. Qed.

(** C7, amended. With tone [auto] the resolved tone is decided on the
    lowercased paragraph texts joined by single spaces: urgent when that
    text contains one of the urgent keywords, otherwise friendly when it
    contains one of the friendly keywords, otherwise formal. An explicit
    formal, urgent or friendly is kept, and any other explicit value
    becomes formal. *)
Theorem resolve_tone_correct (doc : document) :
  let text := joined_text doc in
  ((∃ k, k ∈ urgent_keywords ∧ contains k text = true) →
     resolve_tone doc "auto" = "urgent")
  ∧ ((∀ k, k ∈ urgent_keywords → contains k text = false) →
     (∃ k, k ∈ friendly_keywords ∧ contains k text = true) →
     resolve_tone doc "auto" = "friendly")
  ∧ ((∀ k, k ∈ urgent_keywords ++ friendly_keywords → contains k text = false) →
     resolve_tone doc "auto" = "formal")
  ∧ (∀ tone, tone ∈ ["formal"; "urgent"; "friendly"] →
       resolve_tone doc tone = tone)
  ∧ (∀ tone, tone ∉ ["auto"; "formal"; "urgent"; "friendly"] →
       resolve_tone doc tone = "formal").
Proof.
  intros text.
  assert (∀ keys, any_in keys text = true ↔ ∃ k, k ∈ keys ∧ contains k text = true)
    as Hany.
  { intros keys. unfold any_in. rewrite existsb_exists.
    by setoid_rewrite list_elem_of_In. }
  assert (∀ keys, (∀ k, k ∈ keys → contains k text = false) → any_in keys text = false)
    as Hnone.
  { intros keys H. apply not_true_is_false. rewrite Hany.
    intros (k & Hk & Hc). rewrite (H k Hk) in Hc. done. }
  assert (∀ tone, tone_of_text text = tone → resolve_tone doc "auto" = tone
                  ∨ tone ∉ ["formal"; "urgent"; "friendly"]) as Hauto.
  { intros tone <-. unfold resolve_tone. cbn [String.eqb Ascii.eqb Bool.eqb].
    change (_detect_tone doc) with (tone_of_text text).
    unfold tone_of_text. left. by repeat case_match. }
  split_and!.
  - intros Hu%Hany. destruct (Hauto "urgent") as [?|Hn]; [|done|by destruct Hn; repeat constructor].
    unfold tone_of_text. by rewrite Hu.
  - intros Hu%Hnone Hf%Hany. destruct (Hauto "friendly") as [?|Hn]; [|done|by destruct Hn; repeat constructor].
    unfold tone_of_text. by rewrite Hu, Hf.
  - intros H. destruct (Hauto "formal") as [?|Hn]; [|done|by destruct Hn; repeat constructor].
    unfold tone_of_text. rewrite !Hnone; [done | |]; intros k Hk; apply H, elem_of_app; auto.
  - intros tone Ht. unfold resolve_tone.
    repeat (apply elem_of_cons in Ht as [->|Ht]; [done|]). by apply elem_of_nil in Ht.
  - intros tone Ht. unfold resolve_tone.
    assert (∀ x, x ∈ ["auto"; "formal"; "urgent"; "friendly"] → tone ≠ x) as Hne.
    { intros x Hx ->. done. }
    destruct (String.eqb_spec tone "auto") as [?|_]; [by destruct (Hne "auto"); repeat constructor|].
    cbn [existsb].
    destruct (String.eqb_spec tone "formal") as [?|_]; [by destruct (Hne "formal"); repeat constructor|].
    destruct (String.eqb_spec tone "urgent") as [?|_]; [by destruct (Hne "urgent"); repeat constructor|].
    destruct (String.eqb_spec tone "friendly") as [?|_]; [by destruct (Hne "friendly"); repeat constructor|]. done.
Qed.

Lemma resolve_tone_correct_witness :
  resolve_tone final_notice_doc "auto" = "urgent".
Proof.
  apply (resolve_tone_correct final_notice_doc).
  exists "final notice". split; [repeat constructor | reflexivity].
Defined.

End ToneFacts.

(** ** Substring search and replacement *)

Section ReplaceFacts.
Import PyStr.

Lemma prefix_app (p s : string) :
  String.prefix p s = true ↔ ∃ rest, s = p +:+ rest.
Proof.
  revert s. induction p as [|a p IH]; intros [|b s]; simpl.
  - split; [by exists "" | done].
  - split; [by exists (String b s) | done].
  - split; [done | by intros [? ?]].
  - destruct (Ascii.ascii_dec a b) as [->|Hne].
    + rewrite IH. split; intros [rest H]; exists rest.
      * by rewrite H.
      * by injection H.
    + split; [done | intros [rest H]; by injection H].
Qed.

(** [needle in hay] holds exactly when [hay] splits around [needle]. *)
Lemma contains_app (needle hay : string) :
  contains needle hay = true ↔ ∃ pre post, hay = pre +:+ needle +:+ post.
Proof.
  induction hay as [|c hay IH]; cbn [contains]; rewrite orb_true_iff, prefix_app.
  - split.
    + intros [[rest H]|?]; [|done]. by exists "", rest.
    + intros (pre & post & H). left. destruct pre; [by exists post | done].
  - rewrite IH. split.
    + intros [[rest H]|(pre & post & H)]; [by exists "", rest|].
      exists (String c pre), post. by rewrite H.
    + intros (pre & post & H). destruct pre as [|b pre].
      * left. by exists post.
      * right. exists pre, post. by injection H.
Qed.





(** An empty placeholder: the new text goes before every character and
    at the end. *)
Lemma replace_empty (new s : string) :
  replace "" new s = intersperse new s.
Proof. reflexivity. Qed.

End ReplaceFacts.

(** ** Placeholder replacement *)

Section PlaceholderFacts.
Import PyStr Docx Notice.

Lemma join_empty_singleton (s : string) : join "" [s] = s.
Proof. reflexivity. Qed.


Lemma paragraph_text_map_runs (f : run → run) (p : paragraph) :
  (∀ r, r_text (f r) = r_text r) →
  paragraph_text (par_set_runs (f <$> p_runs p) p) = paragraph_text p.
Proof.
  intros Hf. unfold paragraph_text. cbn [p_runs par_set_runs].
  rewrite <- list_fmap_compose. f_equal. apply list_fmap_ext. intros i r _. apply Hf.
Qed.


Lemma apply_tone_body_texts (doc : document) (tone : string)
    (fname : option string) (fsize : option Z) :
  body_texts (_apply_tone doc tone fname fsize) = body_texts doc.
Proof.
  unfold body_texts, _apply_tone. cbn [d_paragraphs doc_set_tables doc_set_paragraphs].
  rewrite <- list_fmap_compose. apply list_fmap_ext. intros i p _. cbn [compose].
  set (p1 := if truthy_str fname && truthy_int fsize then _ else p).
  assert (paragraph_text p1 = paragraph_text p) as H1.
  { subst p1. case_match; [|done]. by apply paragraph_text_map_runs. }
  set (p2 := if String.eqb _ _ && _ then _ else p1).
  assert (paragraph_text p2 = paragraph_text p1) as H2.
  { subst p2. case_match; [|done]. by apply paragraph_text_map_runs. }
  change (paragraph_text (par_set_alignment (Some AlignLeft) p2))
    with (paragraph_text p2).
  by rewrite H2, H1.
Qed.

Lemma apply_tone_table_texts (doc : document) (tone : string)
    (fname : option string) (fsize : option Z) :
  table_texts (_apply_tone doc tone fname fsize) = table_texts doc.
Proof.
  unfold table_texts, _apply_tone. cbn [d_tables doc_set_tables doc_set_paragraphs].
  rewrite <- list_fmap_compose. apply list_fmap_ext. intros i t _. cbn [compose].
  cbn [t_rows table_set_rows table_set_alignment].
  rewrite <- list_fmap_compose. apply list_fmap_ext. intros j r _. cbn [compose].
  cbn [row_cells row_set_cells].
  rewrite <- list_fmap_compose. apply list_fmap_ext. by intros k c _.
Qed.




End PlaceholderFacts.

(** ** Template baseline *)

Section BaselineFacts.
Import PyStr Docx Notice Examples.

(** C4, at a failing input. The first non-empty font name over the runs
    of [two_fonts_doc] is "Arial" and the first non-empty size is 12;
    [_extract_template_baseline] keeps overwriting the name until both
    values are set, and returns "Times New Roman". *)
Theorem template_baseline_takes_later_font :
  first_font_name (all_runs two_fonts_doc) = Some "Arial"
  ∧ first_font_size (all_runs two_fonts_doc) = Some 12%Z
  ∧ _extract_template_baseline two_fonts_doc "Bookman Old Style" 8
    = Ok (mk_template_baseline "Times New Roman" 12 None None None).
Proof. split_and!; reflexivity. Qed.

(** When a single run carries both a font name and a size of at least
    one point, and no earlier run carries either, that run decides both
    values. *)
Lemma scan_runs_first_complete (rs0 rs1 : list run) (r : run) (name : string)
    (size : Z) :
  Forall (λ r0, truthy_str (r_font_name r0) = false
                ∧ truthy_int (r_font_size r0) = false) rs0 →
  r_font_name r = Some name → name ≠ "" →
  r_font_size r = Some size → pt_int size ≠ 0%Z →
  scan_runs (rs0 ++ r :: rs1) None None = (Some name, Some (pt_int size)).
Proof.
  intros Hrs0 Hname Hne Hsize Hpt. induction Hrs0 as [|r0 rs0 [Hn Hs] _ IH].
  - cbn [app scan_runs]. rewrite Hname, Hsize.
    assert (truthy_str (Some name) = true) as Ht by (by destruct name).
    assert (truthy_int (Some size) = true) as Hi.
    { unfold truthy_int. apply negb_true_iff, Z.eqb_neq. intros ->. by apply Hpt. }
    rewrite Ht, Hi. cbn [fmap option_fmap option_map].
    assert (truthy_int (Some (pt_int size)) = true) as ->.
    { unfold truthy_int. by apply negb_true_iff, Z.eqb_neq. }
    by rewrite Ht.
  - cbn [app scan_runs]. rewrite Hn, Hs. cbn [truthy_str Ifsc.truthy andb]. apply IH.
Qed.

End BaselineFacts.

(** ** Failure handling *)

Section BatchFacts.
Import Docx Notice Batch Examples.

Lemma update_word_template_true (w : world) (template_file output_file : string)
    (bank_name : string) (accounts : list Grouping.account)
    (placeholder tone font_name : string) (font_size : Z) :
  update_word_template w template_file output_file bank_name accounts
    placeholder tone font_name font_size = true
  ↔ ∃ doc doc',
      open_document w template_file = Ok doc
      ∧ update_document doc bank_name accounts placeholder tone font_name font_size
        = Ok doc'
      ∧ save_document w output_file doc' = Ok tt.
Proof.
  unfold update_word_template.
  destruct (open_document w template_file) as [doc|e]; cbn [mbind result_bind].
  2: { split; [done | intros (? & ? & H & _); discriminate H]. }
  destruct (update_document doc _ _ _ _ _ _) as [doc'|e] eqn:Hu;
    cbn [mbind result_bind].
  2: { split; [done | intros (? & ? & [= <-] & H & _); congruence]. }
  destruct (save_document w output_file doc') as [[]|e] eqn:Hs.
  - split; [by exists doc, doc' | done].
  - split; [done | intros (? & ? & [= <-] & H & ?); congruence].
Qed.

Lemma sum_list_cons (x : nat) (l : list nat) :
  sum_list (x :: l) = x + sum_list l.
Proof. reflexivity. Qed.

Lemma notice_for_group_report (w : world) (a : args) (st : progress)
    (group : string * list Grouping.account) :
  notice_for_group w a st group
  = mk_progress
      (success_count st + if rep_saved (report_for w a group) then 1 else 0)
      (reports st ++ [report_for w a group]).
Proof.
  destruct group as [ifsc accounts]. unfold notice_for_group, report_for.
  cbn [fst snd rep_saved]. case_match; [done|]. by rewrite Nat.add_0_r.
Qed.

Lemma generate_notices_from (w : world) (a : args) (groups : Grouping.groups)
    (st : progress) :
  foldl (notice_for_group w a) st groups
  = mk_progress
      (success_count st + saved_count (report_for w a <$> groups))
      (reports st ++ (report_for w a <$> groups)).
Proof.
  revert st. induction groups as [|g groups IH]; intros st; cbn [foldl fmap list_fmap].
  - unfold saved_count. cbn. rewrite Nat.add_0_r, app_nil_r. by destruct st.
  - rewrite IH, notice_for_group_report. cbn [success_count reports].
    unfold saved_count. rewrite fmap_cons, sum_list_cons.
    f_equal; [lia | by rewrite <- app_assoc].
Qed.

Lemma saved_failed_count (rs : list report) :
  saved_count rs + failed_count rs = length rs.
Proof.
  unfold saved_count, failed_count. induction rs as [|r rs IH]; [done|].
  rewrite !fmap_cons, !sum_list_cons. cbn [length].
  destruct (rep_saved r); lia.
Qed.

(** C9. [update_word_template] returns a boolean in every case: [True]
    exactly when opening the template, transforming it and saving it all
    succeed, [False] as soon as one of them raises. The loop of [main]
    produces one report per group, in order, each decided by that
    group's own call whatever happened to the groups before it; the
    success count is the number of saved notices, and saved plus failed
    is the number of groups. *)
Theorem failures_do_not_abort_batch (w : world) (a : args) :
  (∀ template_file output_file bank_name accounts placeholder tone font_name
     font_size,
     (update_word_template w template_file output_file bank_name accounts
        placeholder tone font_name font_size = true
      ↔ ∃ doc doc',
          open_document w template_file = Ok doc
          ∧ update_document doc bank_name accounts placeholder tone font_name
              font_size = Ok doc'
          ∧ save_document w output_file doc' = Ok tt)
     ∧ (update_word_template w template_file output_file bank_name accounts
          placeholder tone font_name font_size = false
        ↔ (∃ e, open_document w template_file = Raise e)
          ∨ (∃ doc e,
               open_document w template_file = Ok doc
               ∧ update_document doc bank_name accounts placeholder tone
                   font_name font_size = Raise e)
          ∨ (∃ doc doc' e,
               open_document w template_file = Ok doc
               ∧ update_document doc bank_name accounts placeholder tone
                   font_name font_size = Ok doc'
               ∧ save_document w output_file doc' = Raise e)))
  ∧ (∀ grouped_data,
       let result := generate_notices w a grouped_data in
       reports result = report_for w a <$> grouped_data
       ∧ rep_ifsc <$> reports result = Grouping.keys grouped_data
       ∧ success_count result = saved_count (reports result)
       ∧ saved_count (reports result) + failed_count (reports result)
         = length grouped_data).
Proof.
  split.
  - intros tfile ofile bank accounts ph tn fname fsize.
    split; [apply update_word_template_true|].
    unfold update_word_template.
    destruct (open_document w tfile) as [doc|e]; cbn [mbind result_bind].
    2: { split; [intros _; left; by exists e | done]. }
    destruct (update_document doc _ _ _ _ _ _) as [doc'|e] eqn:Hu;
      cbn [mbind result_bind].
    2: { split; [intros _; right; left; by exists doc, e | done]. }
    destruct (save_document w ofile doc') as [[]|e] eqn:Hs.
    + split; [done|]. intros [(? & ?)|[(? & ? & [= <-] & ?)|(? & ? & ? & [= <-] & ? & ?)]];
        congruence.
    + split; [intros _; right; right; by exists doc, doc', e | done].
  - intros grouped_data result. subst result. unfold generate_notices.
    rewrite generate_notices_from. cbn [success_count reports app].
    split_and!; [done | | done |].
    + rewrite <- list_fmap_compose. unfold Grouping.keys.
      apply list_fmap_ext. by intros i [k v] _.
    + by rewrite saved_failed_count, length_fmap.
Qed.

Lemma failures_do_not_abort_batch_witness :
  rep_saved <$> reports (generate_notices hdfc_unwritable batch_args three_groups)
  = [true; false; true]
  ∧ success_count (generate_notices hdfc_unwritable batch_args three_groups) = 2.
Proof.
  destruct (failures_do_not_abort_batch hdfc_unwritable batch_args) as [_ H].
  destruct (H three_groups) as (Hr & _ & Hc & _).
  rewrite Hc, Hr. split; reflexivity.
Defined.

End BatchFacts.

(** ** The accounts table *)

Section AccountsTableFacts.
Import PyStr Docx Notice.







Lemma for_each_ok_inv {A S : Type} (P : S → Prop) (body : S → A → result S)
    (xs : list A) (st st' : S) :
  (∀ s x s', P s → body s x = Ok s' → P s') →
  P st → for_each body xs st = Ok st' → P st'.
Proof.
  intros Hbody. revert st. induction xs as [|x xs IH]; intros st HP; cbn [for_each].
  - by intros [= <-].
  - destruct (body st x) as [s1|e] eqn:Hb; cbn [mbind result_bind]; [|done].
    apply IH. by eapply Hbody.
Qed.







End AccountsTableFacts.

(** ** The nodal-officer step: body paragraphs *)

Section NodalParagraphFacts.
Import PyStr Docx Notice.
Context (bank_name : string) (nb : nodal_baseline)
        (styles : gmap string style_type).

#[local] Abbreviation treat := (λ q, _apply_baseline_to_paragraph q bank_name nb styles).
#[local] Abbreviation visit := (nodal_paragraph_visit bank_name nb styles).

(** The paragraphs when the loop reaches index [n]. *)
#[local] Abbreviation reached ps n := (foldl visit ps (seq 0 n)).

Lemma visit_length (ps : list paragraph) (i : nat) :
  length (visit ps i) = length ps.
Proof.
  unfold nodal_paragraph_visit. repeat case_match; try done. apply length_alter.
Qed.

Lemma visit_other (ps : list paragraph) (i j : nat) :
  j ≠ i + 1 → visit ps i !! j = ps !! j.
Proof.
  intros Hj. unfold nodal_paragraph_visit. repeat case_match; try done.
  by apply list_lookup_alter_ne.
Qed.


Lemma reached_succ (ps : list paragraph) (n : nat) :
  reached ps (S n) = visit (reached ps n) n.
Proof. by rewrite seq_S, foldl_app. Qed.

Lemma reached_length (ps : list paragraph) (n : nat) :
  length (reached ps n) = length ps.
Proof.
  induction n as [|n IH]; [done|]. by rewrite reached_succ, visit_length.
Qed.


(** Indices up to [n] are not written from index [n] on. *)
Lemma reached_settled (ps : list paragraph) (n m k : nat) :
  k ≤ n → n ≤ m → reached ps m !! k = reached ps n !! k.
Proof.
  intros Hk Hm. induction Hm as [|m Hm IH]; [done|].
  rewrite reached_succ, visit_other by lia. done.
Qed.

Lemma nodal_paragraphs_reached (ps : list paragraph) (i : nat) :
  i ≤ length ps →
  nodal_paragraphs bank_name nb styles ps !! i = reached ps i !! i.
Proof. intros Hi. unfold nodal_paragraphs. by apply reached_settled. Qed.


Lemma nodal_paragraphs_first (ps : list paragraph) :
  nodal_paragraphs bank_name nb styles ps !! 0 = ps !! 0.
Proof.
  destruct ps as [|p ps]; [done|].
  rewrite nodal_paragraphs_reached by (simpl; lia). done.
Qed.

End NodalParagraphFacts.

(** ** The nodal-officer step: table cells *)

Section ForEachFacts.
Context {A S : Type} (body : S → A → result S).

Lemma for_each_app (xs ys : list A) (st : S) :
  for_each body (xs ++ ys) st
  = (st1 ← for_each body xs st; for_each body ys st1).
Proof.
  revert st. induction xs as [|x xs IH]; intros st; cbn [app for_each]; [done|].
  destruct (body st x); cbn [mbind result_bind]; [apply IH | done].
Qed.

Lemma for_each_snoc_ok (xs : list A) (x : A) (st st' : S) :
  for_each body (xs ++ [x]) st = Ok st' →
  ∃ st1, for_each body xs st = Ok st1 ∧ body st1 x = Ok st'.
Proof.
  rewrite for_each_app. destruct (for_each body xs st) as [st1|e]; [|done].
  cbn [mbind result_bind for_each]. intros H. exists st1. split; [done|].
  by destruct (body st1 x).
Qed.

Lemma for_each_total (P : S → Prop) (xs : list A) (st : S) :
  P st →
  (∀ s x, x ∈ xs → P s → ∃ s', body s x = Ok s' ∧ P s') →
  ∃ st', for_each body xs st = Ok st' ∧ P st'.
Proof.
  revert st. induction xs as [|x xs IH]; intros st HP Hbody; cbn [for_each].
  - by exists st.
  - destruct (Hbody st x) as (s1 & -> & HP1); [left | done |].
    cbn [mbind result_bind]. apply IH; [done|].
    intros s y Hy. apply Hbody. by right.
Qed.

End ForEachFacts.

Section NodalCellFacts.
Import PyStr Docx Notice.
Context (bank_name : string) (nb : nodal_baseline)
        (styles : gmap string style_type).

#[local] Abbreviation treat_cell := (apply_baseline_to_cell bank_name nb styles).
#[local] Abbreviation cvisit := (nodal_cell_visit bank_name nb styles).
#[local] Abbreviation rvisit := (nodal_row_visit bank_name nb styles).

Lemma table_cell_Ok (rows : list row) (r c : nat) (x : cell) :
  table_cell rows r c = Ok x ↔ cell_at rows r c = Some x.
Proof.
  unfold table_cell, cell_at, item.
  destruct (rows !! r) as [row|]; cbn [mbind result_bind option_bind]; [|done].
  destruct (row_cells row !! c); split; intros; by simplify_eq.
Qed.

Lemma table_cell_Raise (rows : list row) (r c : nat) (e : exn) :
  table_cell rows r c = Raise e → cell_at rows r c = None.
Proof.
  unfold table_cell, cell_at, item.
  destruct (rows !! r) as [row|]; cbn [mbind result_bind option_bind]; [|done].
  by destruct (row_cells row !! c).
Qed.

Lemma cell_at_lt (rows : list row) (r c : nat) (x : cell) :
  cell_at rows r c = Some x →
  ∃ row, rows !! r = Some row ∧ row_cells row !! c = Some x
         ∧ c < length (row_cells row).
Proof.
  unfold cell_at. destruct (rows !! r) as [row|]; cbn [mbind option_bind]; [|done].
  intros H. exists row. split_and!; [done..|]. by eapply lookup_lt_Some.
Qed.

(** Writing cell [(k, c)] of a table. *)
Lemma cell_at_write (rows : list row) (k c i j : nat) (x : cell) :
  cell_at (alter (λ r, row_set_cells (<[c := x]> (row_cells r)) r) k rows) i j
  = if decide (i = k ∧ j = c ∧ is_Some (cell_at rows k c)) then Some x
    else cell_at rows i j.
Proof.
  unfold cell_at. destruct (decide (i = k)) as [->|Hik].
  - rewrite list_lookup_alter_eq.
    destruct (rows !! k) as [row|]; cbn [fmap option_fmap option_map mbind option_bind].
    2: { case_decide as H; [|done]. by destruct H as (_ & _ & [? ?]). }
    cbn [row_cells row_set_cells]. rewrite list_lookup_insert.
    destruct (decide (j = c)) as [->|Hjc].
    + destruct (row_cells row !! c) eqn:Hc.
      * rewrite !decide_True; [done | by eauto | split; [done|by eapply lookup_lt_Some]].
      * rewrite !decide_False; [done | by intros (_ & _ & [? ?]) |].
        intros [_ ?]. apply lookup_ge_None in Hc. lia.
    + rewrite !decide_False; [done | by intros (_ & ? & _) | by intros [? _]].
  - rewrite list_lookup_alter_ne by done.
    rewrite decide_False; [done | by intros [? _]].
Qed.

Lemma row_frame_write (rows : list row) (k c : nat) (x : cell) :
  row_frame <$> alter (λ r, row_set_cells (<[c := x]> (row_cells r)) r) k rows
  = row_frame <$> rows.
Proof.
  apply list_eq. intros i. rewrite !list_lookup_fmap.
  destruct (decide (k = i)) as [->|Hne].
  - rewrite list_lookup_alter_eq. destruct (rows !! i) as [row|]; [|done].
    cbn. unfold row_frame. cbn [row_cells row_set_cells row_height row_height_rule].
    by rewrite length_insert.
  - by rewrite list_lookup_alter_ne.
Qed.

(** One cell visit: what it reads, what it writes. *)
Lemma cvisit_spec (r c : nat) (rows rows' : list row) :
  cvisit r rows c = Ok rows' →
  ∃ c0,
    cell_at rows r c = Some c0
    ∧ row_frame <$> rows' = row_frame <$> rows
    ∧ (∀ i j, (i ≠ r + 1 ∨ j ≠ c) → cell_at rows' i j = cell_at rows i j)
    ∧ cell_at rows' (r + 1) c
      = if is_nodal (cell_text c0) then treat_cell <$> cell_at rows (r + 1) c
        else cell_at rows (r + 1) c.
Proof.
  unfold nodal_cell_visit.
  destruct (table_cell rows r c) as [c0|e] eqn:Hc0; cbn [mbind result_bind]; [|done].
  apply table_cell_Ok in Hc0. intros H. exists c0. split; [done|].
  destruct (is_nodal (cell_text c0)); cbn [andb] in H.
  2: { by injection H as <-. }
  destruct (Nat.ltb_spec (r + 1) (length rows)) as [Hlt|Hge].
  2: { injection H as <-. split_and!; [done..|].
       unfold cell_at. by rewrite lookup_ge_None_2. }
  destruct (table_cell rows (r + 1) c) as [target|e] eqn:Ht;
    cbn [mbind result_bind] in H; [|done].
  apply table_cell_Ok in Ht. injection H as <-. split_and!.
  - apply row_frame_write.
  - intros i j Hij. rewrite cell_at_write, decide_False; [done|].
    intros (-> & -> & _). by destruct Hij.
  - rewrite cell_at_write, decide_True by eauto. by rewrite Ht.
Qed.


(** The inner loop over the first [n] cells of row [r]. *)
Lemma cells_loop_spec (r n : nat) (rows rows' : list row) :
  for_each (cvisit r) (seq 0 n) rows = Ok rows' →
  row_frame <$> rows' = row_frame <$> rows
  ∧ (∀ i j, i ≠ r + 1 → cell_at rows' i j = cell_at rows i j)
  ∧ (∀ j, n ≤ j → cell_at rows' (r + 1) j = cell_at rows (r + 1) j)
  ∧ (∀ j, j < n →
       ∃ c0, cell_at rows r j = Some c0
             ∧ cell_at rows' (r + 1) j
               = if is_nodal (cell_text c0)
                 then treat_cell <$> cell_at rows (r + 1) j
                 else cell_at rows (r + 1) j).
Proof.
  revert rows'. induction n as [|n IH]; intros rows'.
  - intros [= <-]. split_and!; [done..|]. intros j Hj. lia.
  - rewrite seq_S. intros (rows1 & H1 & Hv)%for_each_snoc_ok.
    destruct (IH _ H1) as (Hf & Hother & Hrest & Hdone).
    destruct (cvisit_spec _ _ _ _ Hv) as (c0 & Hc0 & Hf' & Hother' & Hbelow).
    cbn [Nat.add] in *. split_and!.
    + by rewrite Hf'.
    + intros i j Hi. rewrite Hother' by auto. by apply Hother.
    + intros j Hj. rewrite Hother' by (right; lia). apply Hrest. lia.
    + intros j Hj. destruct (decide (j = n)) as [->|Hne].
      * exists c0. rewrite Hother in Hc0 by lia. split; [done|].
        rewrite Hbelow. by rewrite Hrest.
      * destruct (Hdone j ltac:(lia)) as (c1 & Hc1 & Hj1). exists c1.
        split; [done|]. by rewrite Hother' by (right; lia).
Qed.

(** One iteration of the outer loop: all cells of row [r] are visited. *)
Lemma rvisit_spec (r : nat) (rows rows' : list row) :
  rvisit rows r = Ok rows' →
  row_frame <$> rows' = row_frame <$> rows
  ∧ (∀ i j, i ≠ r + 1 → cell_at rows' i j = cell_at rows i j)
  ∧ (∀ j c0, cell_at rows r j = Some c0 →
       cell_at rows' (r + 1) j
       = if is_nodal (cell_text c0) then treat_cell <$> cell_at rows (r + 1) j
         else cell_at rows (r + 1) j).
Proof.
  unfold nodal_row_visit, item.
  destruct (rows !! r) as [r0|] eqn:Hr0; cbn [mbind result_bind]; [|done].
  intros (Hf & Hother & _ & Hdone)%cells_loop_spec. split_and!; [done..|].
  intros j c0 Hc0. destruct (cell_at_lt _ _ _ _ Hc0) as (row & Hrow & _ & Hj).
  assert (row = r0) as -> by congruence.
  destruct (Hdone j Hj) as (c1 & Hc1 & ->). by assert (c1 = c0) as -> by congruence.
Qed.

(** The outer loop over the first [m] rows. *)
Lemma rows_loop_spec (m : nat) (rows rows' : list row) :
  for_each rvisit (seq 0 m) rows = Ok rows' →
  row_frame <$> rows' = row_frame <$> rows
  ∧ (∀ j, cell_at rows' 0 j = cell_at rows 0 j)
  ∧ (∀ i j, m < i → cell_at rows' i j = cell_at rows i j)
  ∧ (∀ i j c0, i < m → cell_at rows' i j = Some c0 →
       cell_at rows' (i + 1) j
       = if is_nodal (cell_text c0) then treat_cell <$> cell_at rows (i + 1) j
         else cell_at rows (i + 1) j).
Proof.
  revert rows'. induction m as [|m IH]; intros rows'.
  - intros [= <-]. split_and!; [done..|]. intros i j c0 Hi. lia.
  - rewrite seq_S. intros (rows1 & H1 & Hv)%for_each_snoc_ok.
    destruct (IH _ H1) as (Hf & Hfirst & Hrest & Hdone).
    destruct (rvisit_spec _ _ _ Hv) as (Hf' & Hother & Hbelow).
    cbn [Nat.add] in *. split_and!.
    + by rewrite Hf'.
    + intros j. rewrite Hother by lia. apply Hfirst.
    + intros i j Hi. rewrite Hother by lia. apply Hrest. lia.
    + intros i j c0 Hi Hc0. rewrite Hother in Hc0 by lia.
      destruct (decide (i = m)) as [->|Hne].
      * rewrite (Hbelow _ _ Hc0). by rewrite Hrest by lia.
      * rewrite Hother by lia. apply Hdone; [lia | done].
Qed.

Lemma nodal_cells_spec (t t' : table) :
  nodal_cells bank_name nb styles t = Ok t' →
  t' = table_set_rows (t_rows t') t
  ∧ row_frame <$> t_rows t' = row_frame <$> t_rows t
  ∧ (∀ j, cell_at (t_rows t') 0 j = cell_at (t_rows t) 0 j)
  ∧ (∀ i j c0, cell_at (t_rows t') i j = Some c0 →
       cell_at (t_rows t') (i + 1) j
       = if is_nodal (cell_text c0)
         then treat_cell <$> cell_at (t_rows t) (i + 1) j
         else cell_at (t_rows t) (i + 1) j).
Proof.
  unfold nodal_cells.
  destruct (for_each _ _ _) as [rows'|e] eqn:Hloop; cbn [mbind result_bind]; [|done].
  intros [= <-]. cbn [t_rows table_set_rows].
  destruct (rows_loop_spec _ _ _ Hloop) as (Hf & Hfirst & _ & Hdone).
  split_and!; [done..|]. intros i j c0 Hc0. apply Hdone; [|done].
  destruct (cell_at_lt _ _ _ _ Hc0) as (row & Hrow%lookup_lt_Some & _).
  assert (length rows' = length (t_rows t)) as <-; [|done].
  by rewrite <- (length_fmap row_frame), Hf, length_fmap.
Qed.


Lemma nodal_tables_Forall2 (tables tables' : list table) :
  nodal_tables bank_name nb styles tables = Ok tables' →
  Forall2 (λ t t', nodal_cells bank_name nb styles t = Ok t') tables tables'.
Proof.
  revert tables'. induction tables as [|t tables IH]; intros tables'; cbn [nodal_tables].
  - intros [= <-]. constructor.
  - destruct (nodal_cells _ _ _ t) as [t'|e] eqn:Ht; cbn [mbind result_bind]; [|done].
    destruct (nodal_tables _ _ _ tables) as [rest'|e] eqn:Hrest;
      cbn [mbind result_bind]; [|done].
    intros [= <-]. constructor; [done | by apply IH].
Qed.


End NodalCellFacts.

(** ** The steps of [update_word_template] *)

Section UpdateFacts.
Import PyStr Docx Notice Examples.






End UpdateFacts.

(** ** The accounts table in the notice *)

Section AccountsTableProperties.
Import PyStr Docx Notice Examples.






End AccountsTableProperties.

(** ** Grouping: order and contents *)

Section GroupedByFacts.
Import PyStr Ifsc Grouping GroupedBy.

Lemma first_seen_elem (l : list string) (x : string) :
  x ∈ first_seen l ↔ x ∈ l.
Proof.
  induction l as [|y l IH]; cbn [first_seen]; [done|].
  rewrite !elem_of_cons, list_elem_of_filter, IH.
  destruct (decide (x = y)); naive_solver.
Qed.

Lemma first_seen_snoc (l : list string) (x : string) :
  first_seen (l ++ [x])
  = if bool_decide (x ∈ l) then first_seen l else first_seen l ++ [x].
Proof.
  induction l as [|y l IH]; [done|].
  cbn [app first_seen]. rewrite IH.
  destruct (decide (x ∈ l)) as [Hin|Hin].
  - rewrite !bool_decide_eq_true_2; [done | by right | done].
  - rewrite (bool_decide_eq_false_2 (x ∈ l)) by done.
    rewrite filter_app. destruct (decide (x = y)) as [->|Hne].
    + rewrite bool_decide_eq_true_2 by left.
      rewrite filter_cons_False, filter_nil, app_nil_r; [done | naive_solver].
    + rewrite bool_decide_eq_false_2.
      * by rewrite filter_cons_True, filter_nil.
      * intros [?|?]%elem_of_cons; congruence.
Qed.

Lemma first_seen_NoDup (l : list string) : NoDup (first_seen l).
Proof.
  induction l as [|y l IH]; cbn [first_seen]; constructor.
  - rewrite list_elem_of_filter. naive_solver.
  - by apply NoDup_filter.
Qed.

Lemma get_append_to (k k' : string) (a : account) (g : groups) :
  get (append_to k a g) k'
  = if decide (k' = k) then Some (default [] (get g k) ++ [a]) else get g k'.
Proof.
  induction g as [|[k0 v] g IH]; cbn [append_to get].
  - destruct (String.eqb_spec k k'), (decide (k' = k)); by simplify_eq.
  - destruct (String.eqb_spec k0 k) as [->|Hk0]; cbn [get].
    + destruct (String.eqb_spec k k'), (decide (k' = k)); by simplify_eq.
    + destruct (String.eqb_spec k0 k') as [->|Hk0'].
      * by rewrite decide_False.
      * apply IH.
Qed.

Lemma is_valid_spec (k : string) : is_valid k = true ↔ validate_ifsc k = Ok true.
Proof.
  unfold is_valid. destruct (validate_ifsc_outcome k) as (b & -> & _).
  destruct b; split; by try intros [=].
Qed.

Lemma valid_codes_snoc (seen : list row) (r : row) :
  valid_codes (seen ++ [r])
  = valid_codes seen ++ (if is_valid (code_of r) then [code_of r] else []).
Proof.
  unfold valid_codes. rewrite fmap_app, filter_app. f_equal.
  change (code_of <$> [r]) with [code_of r].
  destruct (is_valid (code_of r)) eqn:Hv.
  - by rewrite filter_cons_True.
  - rewrite filter_cons_False; [done | congruence].
Qed.

Lemma invalid_codes_snoc (seen : list row) (r : row) :
  invalid_codes (seen ++ [r])
  = invalid_codes seen ++ (if is_valid (code_of r) then [] else [code_of r]).
Proof.
  unfold invalid_codes. rewrite fmap_app, filter_app. f_equal.
  change (code_of <$> [r]) with [code_of r].
  destruct (is_valid (code_of r)) eqn:Hv.
  - rewrite filter_cons_False; [done | congruence].
  - by rewrite filter_cons_True.
Qed.

Lemma records_with_snoc (k : string) (seen : list row) (r : row) :
  records_with k (seen ++ [r])
  = records_with k seen ++ (if decide (code_of r = k) then [record_of r] else []).
Proof.
  unfold records_with. rewrite filter_app, fmap_app. f_equal.
  destruct (decide (code_of r = k)).
  - by rewrite filter_cons_True.
  - by rewrite filter_cons_False.
Qed.

Lemma records_with_unseen (k : string) (seen : list row) :
  is_valid k = true → k ∉ valid_codes seen → records_with k seen = [].
Proof.
  intros Hv Hk. unfold records_with.
  assert (filter (λ r, code_of r = k) seen = []) as ->; [|done].
  induction seen as [|r seen IH]; [done|].
  unfold valid_codes in Hk, IH. rewrite fmap_cons in Hk.
  destruct (decide (code_of r = k)) as [<-|Hne].
  - rewrite filter_cons_True in Hk by done. destruct Hk. left.
  - rewrite filter_cons_False by done. apply IH.
    destruct (is_valid (code_of r)) eqn:Hr.
    + rewrite filter_cons_True in Hk by done. intros ?. apply Hk. by right.
    + rewrite filter_cons_False in Hk; [done | congruence].
Qed.

Lemma group_row_loop_state (seen : list row) (st : state) (r : row) :
  loop_state seen st →
  ∃ st', group_row st r = Ok st' ∧ loop_state (seen ++ [r]) st'.
Proof.
  intros (Hinv & Hkeys & Hget). unfold group_row. fold (code_of r).
  destruct (validate_ifsc_outcome (code_of r)) as (b & Hb & _). rewrite Hb.
  cbn [mbind result_bind].
  assert (is_valid (code_of r) = b) as Hv.
  { unfold is_valid. rewrite Hb. by destruct b. }
  destruct b; cbn [negb].
  - eexists. split; [done|]. split_and!; cbn [grouped invalid_ifsc].
    + by rewrite invalid_codes_snoc, Hv, app_nil_r.
    + rewrite keys_append_to, Hkeys, valid_codes_snoc, Hv, first_seen_snoc.
      by rewrite (bool_decide_ext _ _ (first_seen_elem _ _)).
    + intros k. rewrite get_append_to, valid_codes_snoc, Hv, records_with_snoc.
      fold (record_of r). destruct (decide (k = code_of r)) as [->|Hne].
      * rewrite decide_True by done.
        rewrite bool_decide_eq_true_2 by (apply elem_of_app; right; by left).
        rewrite Hget. case_bool_decide as Hin; [done|].
        by rewrite records_with_unseen.
      * rewrite decide_False by done. rewrite app_nil_r, Hget.
        apply (f_equal (λ b : bool, if b then _ else _)).
        apply bool_decide_ext. rewrite elem_of_app, list_elem_of_singleton.
        naive_solver.
  - eexists. split; [done|]. split_and!; cbn [grouped invalid_ifsc].
    + by rewrite invalid_codes_snoc, Hv, Hinv.
    + by rewrite valid_codes_snoc, Hv, app_nil_r.
    + intros k. rewrite valid_codes_snoc, Hv, app_nil_r, records_with_snoc, Hget.
      case_bool_decide as Hin; [|done].
      rewrite decide_False, app_nil_r; [done|]. intros <-.
      unfold valid_codes in Hin. apply list_elem_of_filter in Hin as [? _]. congruence.
Qed.

Lemma group_rows_loop_state (rows : list row) :
  ∃ st, group_rows rows = Ok st ∧ loop_state rows st.
Proof.
  assert (∀ rest seen st, loop_state seen st →
            ∃ st', for_each group_row rest st = Ok st'
                   ∧ loop_state (seen ++ rest) st') as Hgen.
  { induction rest as [|r rest IH]; intros seen st Hst; cbn [for_each].
    - exists st. by rewrite app_nil_r.
    - destruct (group_row_loop_state seen st r Hst) as (st1 & -> & Hst1).
      cbn [mbind result_bind]. destruct (IH _ _ Hst1) as (st2 & -> & Hst2).
      exists st2. by rewrite <- app_assoc in Hst2. }
  apply (Hgen rows [] (mk_state [] [])). by split_and!.
Qed.

(** X1. The keys of the grouped mapping are the distinct valid codes, in
    the order in which they first occur in the rows. *)
Theorem group_rows_key_order (rows : list row) :
  ∃ st, group_rows rows = Ok st
        ∧ keys (grouped st) = first_seen (valid_codes rows).
Proof.
  destruct (group_rows_loop_state rows) as (st & Hst & _ & Hkeys & _). eauto.
Qed.

(** X2. Under each key the mapping holds exactly the records of the rows
    with that code, in row order; a code that is invalid or does not
    occur is not a key. *)
Theorem group_rows_group_contents (rows : list row) :
  ∃ st, group_rows rows = Ok st
        ∧ ∀ k, get (grouped st) k
               = if bool_decide (k ∈ valid_codes rows)
                 then Some (records_with k rows) else None.
Proof.
  destruct (group_rows_loop_state rows) as (st & Hst & _ & _ & Hget). eauto.
Qed.

(** X3. The list of invalid codes holds the normalised code of every row
    that fails validation, in row order and with repetitions. *)
Theorem group_rows_invalid_list (rows : list row) :
  ∃ st, group_rows rows = Ok st ∧ invalid_ifsc st = invalid_codes rows.
Proof.
  destruct (group_rows_loop_state rows) as (st & Hst & Hinv & _). eauto.
Qed.

End GroupedByFacts.

(** ** Column resolution *)

Section SheetFacts.
Import PyStr Ifsc Sheet.

Lemma first_with_role_cons (r : role) (col : string) (cols : list string) :
  first_with_role r (col :: cols)
  = if decide (role_of col = r) then Some col else first_with_role r cols.
Proof.
  unfold first_with_role. cbn [list_find]. case_decide; [done|].
  by destruct (list_find _ cols) as [[? ?]|].
Qed.

Lemma first_with_role_Some (r : role) (cols : list string) (col : string) :
  first_with_role r cols = Some col ↔
  ∃ i, cols !! i = Some col ∧ role_of col = r
       ∧ ∀ j c, j < i → cols !! j = Some c → role_of c ≠ r.
Proof.
  unfold first_with_role. rewrite fmap_Some. split.
  - intros ([i c] & (? & ? & Hlt)%list_find_Some & ->). cbn [snd].
    exists i. split_and!; [done..|]. intros j c' ? ?. by eapply Hlt.
  - intros (i & ? & ? & Hlt). exists (i, col). split; [|done].
    apply list_find_Some. split_and!; [done..|]. intros j c' ? ?. by eapply Hlt.
Qed.

Lemma first_with_role_None (r : role) (cols : list string) :
  first_with_role r cols = None ↔ ∀ c, c ∈ cols → role_of c ≠ r.
Proof.
  unfold first_with_role. rewrite fmap_None, list_find_None, Forall_forall. done.
Qed.

(** A name with a role is not empty, so [x or col] keeps it. *)
Lemma role_nonempty (col : string) : role_of col ≠ NoRole → is_empty col = false.
Proof. by destruct col. Qed.

Lemma or_col_first (x : option string) (col : string) :
  is_empty col = false →
  (x = None ∨ truthy x = true) →
  or_col x col = (if truthy x then x else Some col)
  ∧ truthy (or_col x col) = true.
Proof.
  intros Hcol Hx. unfold or_col. split; [done|].
  destruct (truthy x) eqn:Ht; [done|]. cbn. by rewrite Hcol.
Qed.

Lemma foldl_assign_column (cols : list string) (r : roles) :
  settled (account_col r) → settled (name_col r) → settled (ifsc_col r) →
  foldl assign_column r cols
  = mk_roles
      (if truthy (account_col r) then account_col r
       else first_with_role AccountNumber cols)
      (if truthy (name_col r) then name_col r
       else first_with_role AccountName cols)
      (if truthy (ifsc_col r) then ifsc_col r
       else first_with_role IfscCode cols).
Proof.
  revert r. induction cols as [|col cols IH]; intros [a n i] Ha Hn Hi;
    cbn [foldl account_col name_col ifsc_col] in *.
  - unfold first_with_role. cbn.
    destruct Ha as [-> | ->], Hn as [-> | ->], Hi as [-> | ->]; done.
  - rewrite !first_with_role_cons. unfold assign_column.
    pose proof (role_nonempty col) as Hne. unfold role_of in *.
    cbn [account_col name_col ifsc_col].
    destruct (is_account_column (lower col)).
    { destruct (or_col_first a col) as [Ho Ht]; [by apply Hne | done |].
      rewrite IH; cbn [account_col name_col ifsc_col]; [|by right|done..].
      rewrite Ht, Ho. by repeat case_decide. }
    destruct (is_name_column (lower col)).
    { destruct (or_col_first n col) as [Ho Ht]; [by apply Hne | done |].
      rewrite IH; cbn [account_col name_col ifsc_col]; [|done|by right|done].
      rewrite Ht, Ho. by repeat case_decide. }
    destruct (is_ifsc_column (lower col)).
    { destruct (or_col_first i col) as [Ho Ht]; [by apply Hne | done |].
      rewrite IH; cbn [account_col name_col ifsc_col]; [|done|done|by right].
      rewrite Ht, Ho. by repeat case_decide. }
    rewrite IH by done. cbn [account_col name_col ifsc_col].
    by repeat case_decide.
Qed.

Lemma find_columns_roles (columns : list string) :
  find_columns columns
  = mk_roles (first_with_role AccountNumber columns)
      (first_with_role AccountName columns)
      (first_with_role IfscCode columns).
Proof.
  unfold find_columns. rewrite foldl_assign_column; [done|by left..].
Qed.

(** X4. Each role goes to the first column, in sheet order, whose name
    the [if]/[elif] chain classifies to it: a column is the one chosen
    for a role exactly when it has that role and no column before it
    has; a later column never replaces it, and a role that no column has
    stays [None]. *)
Theorem find_columns_first_match (columns : list string) :
  let first_at (r : role) (col : string) :=
    ∃ i, columns !! i = Some col ∧ role_of col = r
         ∧ ∀ j c, j < i → columns !! j = Some c → role_of c ≠ r in
  let absent (r : role) := ∀ c, c ∈ columns → role_of c ≠ r in
  (∀ col, account_col (find_columns columns) = Some col
          ↔ first_at AccountNumber col)
  ∧ (∀ col, name_col (find_columns columns) = Some col
            ↔ first_at AccountName col)
  ∧ (∀ col, ifsc_col (find_columns columns) = Some col
            ↔ first_at IfscCode col)
  ∧ (account_col (find_columns columns) = None ↔ absent AccountNumber)
  ∧ (name_col (find_columns columns) = None ↔ absent AccountName)
  ∧ (ifsc_col (find_columns columns) = None ↔ absent IfscCode).
Proof.
  intros first_at absent. rewrite find_columns_roles.
  cbn [account_col name_col ifsc_col]. subst first_at absent. cbv beta.
  split_and!; intros; first [apply first_with_role_Some | apply first_with_role_None].
Qed.

Lemma first_with_role_truthy (r : role) (cols : list string) (col : string) :
  r ≠ NoRole → first_with_role r cols = Some col → truthy (Some col) = true.
Proof.
  intros Hr (i & _ & Hrole & _)%first_with_role_Some. cbn.
  rewrite role_nonempty; [done | congruence].
Qed.

(** X5. When the three roles are resolved, the three column names come
    from the sheet and are pairwise different, the account-number
    column does not contain "name" and the IFSC column contains "ifsc"
    (both case-insensitively). *)
Theorem resolved_columns_distinct (columns : list string) (a n i : string) :
  account_col (find_columns columns) = Some a →
  name_col (find_columns columns) = Some n →
  ifsc_col (find_columns columns) = Some i →
  a ∈ columns ∧ n ∈ columns ∧ i ∈ columns
  ∧ a ≠ n ∧ a ≠ i ∧ n ≠ i
  ∧ contains "name" (lower a) = false
  ∧ contains "ifsc" (lower i) = true.
Proof.
  rewrite find_columns_roles. cbn [account_col name_col ifsc_col].
  intros (ja & Ha & Hra & _)%first_with_role_Some
         (jn & Hn & Hrn & _)%first_with_role_Some
         (ji & Hi & Hri & _)%first_with_role_Some.
  split_and!; try (by eapply list_elem_of_lookup_2); try congruence.
  - unfold role_of, is_account_column in Hra.
    destruct (contains "name" (lower a)); [|done].
    rewrite andb_false_r in Hra. by repeat case_match.
  - unfold role_of, is_ifsc_column in Hri. by repeat case_match.
Qed.

Lemma resolved_columns_distinct_witness :
  "Account Number" ∈ ["S.No"; "Account Number"; "Account Name"; "IFSC Code"]
  ∧ "Account Name" ∈ ["S.No"; "Account Number"; "Account Name"; "IFSC Code"]
  ∧ "IFSC Code" ∈ ["S.No"; "Account Number"; "Account Name"; "IFSC Code"]
  ∧ "Account Number" ≠ "Account Name" ∧ "Account Number" ≠ "IFSC Code"
  ∧ "Account Name" ≠ "IFSC Code"
  ∧ contains "name" (lower "Account Number") = false
  ∧ contains "ifsc" (lower "IFSC Code") = true.
Proof.
  apply (resolved_columns_distinct
           ["S.No"; "Account Number"; "Account Name"; "IFSC Code"]);
    reflexivity.
Defined.


End SheetFacts.

(** ** Bank names of validated codes *)

Section BankNameFacts.
Import PyStr Ifsc.

Lemma map_chars_length (f : ascii → ascii) (s : string) :
  String.length (map_chars f s) = String.length s.
Proof. induction s as [|c s IH]; [done|]. cbn. by rewrite IH. Qed.

Lemma slice_to_map_chars (f : ascii → ascii) (n : nat) (s : string) :
  slice_to n (map_chars f s) = map_chars f (slice_to n s).
Proof.
  revert s. induction n as [|n IH]; intros [|c s]; try done. cbn. by rewrite IH.
Qed.

Lemma slice_to_four (s : string) :
  4 ≤ String.length s →
  ∃ c0 c1 c2 c3, slice_to 4 s = String c0 (String c1 (String c2 (String c3 ""))).
Proof.
  destruct s as [|c0 [|c1 [|c2 [|c3 s]]]]; cbn; intros; try lia. by eexists _, _, _, _.
Qed.

Lemma bank_names_known (k name : string) :
  IFSC_BANK_MAP !! k = Some name → String.prefix "UNKNOWN" name = false.
Proof.
  unfold IFSC_BANK_MAP. intros H. apply elem_of_list_to_map_2 in H.
  match type of H with
  | _ ∈ ?l =>
      assert (Forall (λ kv : string * string, String.prefix "UNKNOWN" kv.2 = false) l)
        as Hall
  end.
  { repeat constructor. }
  rewrite Forall_forall in Hall. apply (Hall _ H).
Qed.

(** X7. For a code that passes [validate_ifsc], [get_bank_name] is the
    mapped name of its first four characters, uppercased, or those four
    characters followed by " BANK"; it is never an "UNKNOWN BANK (...)"
    text. *)
Theorem validated_code_has_bank_name (k : string) :
  validate_ifsc k = Ok true →
  get_bank_name (Some k)
  = match IFSC_BANK_MAP !! upper (slice_to 4 k) with
    | Some name => name
    | None => upper (slice_to 4 k) +:+ " BANK"
    end
  ∧ String.prefix "UNKNOWN" (get_bank_name (Some k)) = false.
Proof.
  intros Hk.
  assert (String.length k = 11) as Hlen.
  { destruct (decide (String.length k = 11)) as [?|Hne]; [done|].
    rewrite validate_ifsc_wrong_length in Hk by done. by injection Hk. }
  unfold get_bank_name.
  assert (truthy (Some k) = true) as -> by (by destruct k).
  assert ((String.length k <? 4) = false) as -> by (apply Nat.ltb_ge; lia).
  cbn [negb orb].
  destruct (IFSC_BANK_MAP !! upper (slice_to 4 k)) as [name|] eqn:Hlook.
  - cbn [truthy fmt]. rewrite (bank_names_nonempty _ _ Hlook). cbn [negb].
    split; [done|]. by eapply bank_names_known.
  - cbn [truthy]. split; [done|].
    destruct (slice_to_four k ltac:(lia)) as (c0 & c1 & c2 & c3 & ->).
    change (String.prefix "UNKNOWN"
              (String (upper_char c0) (String (upper_char c1)
                 (String (upper_char c2) (String (upper_char c3) " BANK")))) = false).
    cbn [String.prefix].
    repeat (destruct (ascii_dec _ _) as [?|?]; try done; try discriminate).
Qed.

Lemma validated_code_has_bank_name_witness :
  get_bank_name (Some "ZZZZ0AB12CD")
  = match IFSC_BANK_MAP !! upper (slice_to 4 "ZZZZ0AB12CD") with
    | Some name => name
    | None => upper (slice_to 4 "ZZZZ0AB12CD") +:+ " BANK"
    end
  ∧ String.prefix "UNKNOWN" (get_bank_name (Some "ZZZZ0AB12CD")) = false.
Proof. apply (validated_code_has_bank_name "ZZZZ0AB12CD"). reflexivity. Defined.

Lemma upper_char_idem (c : ascii) : upper_char (upper_char c) = upper_char c.
Proof. by destruct c as [[] [] [] [] [] [] [] []]. Qed.

Lemma upper_idem (s : string) : upper (upper s) = upper s.
Proof.
  induction s as [|c s IH]; [done|]. cbn. by rewrite upper_char_idem, IH.
Qed.

(** X8. Codes of four or more characters that differ only in letter
    case have the same bank name. *)
Theorem get_bank_name_ignores_case (s t : string) :
  4 ≤ String.length s →
  upper t = upper s →
  get_bank_name (Some t) = get_bank_name (Some s).
Proof.
  intros Hs Hst.
  assert (String.length t = String.length s) as Hlen.
  { by rewrite <- (map_chars_length upper_char t), <- (map_chars_length upper_char s);
      fold (upper t) (upper s); rewrite Hst. }
  assert (upper (slice_to 4 t) = upper (slice_to 4 s)) as Hcode.
  { unfold upper. rewrite <- !slice_to_map_chars. fold (upper t) (upper s).
    by rewrite Hst. }
  unfold get_bank_name.
  assert (truthy (Some s) = true) as -> by (destruct s; [simpl in Hs; lia | done]).
  assert (truthy (Some t) = true) as ->.
  { destruct t; [simpl in Hlen; lia | done]. }
  rewrite Hlen, Hcode.
  by assert ((String.length s <? 4) = false) as -> by (apply Nat.ltb_ge; lia).
Qed.

Lemma get_bank_name_ignores_case_witness :
  get_bank_name (Some "hdfc0000001") = get_bank_name (Some "HDFC0000001").
Proof.
  apply get_bank_name_ignores_case; [simpl; lia | reflexivity].
Defined.

End BankNameFacts.

(** ** Tone styling *)

Section ToneStylingFacts.
Import PyStr Docx Notice.

(** X9. Whatever the tone, [_apply_tone] leaves every body paragraph
    left-aligned, every table centred and every cell vertically centred,
    and changes no text. *)
Theorem apply_tone_alignment (doc : document) (tone : string)
    (font_name_override : option string) (font_size_override : option Z) :
  let doc' := _apply_tone doc tone font_name_override font_size_override in
  Forall (λ p, p_alignment p = Some AlignLeft) (d_paragraphs doc')
  ∧ Forall
      (λ t, t_alignment t = Some TableCenter
            ∧ Forall
                (λ r, Forall (λ c, c_vertical_alignment c = Some VCenter)
                        (row_cells r))
                (t_rows t))
      (d_tables doc')
  ∧ body_texts doc' = body_texts doc
  ∧ table_texts doc' = table_texts doc.
Proof.
  intros doc'. subst doc'. split_and!.
  - unfold _apply_tone. cbn [d_paragraphs doc_set_tables doc_set_paragraphs].
    apply Forall_fmap, Forall_true. by intros p.
  - unfold _apply_tone. cbn [d_tables doc_set_tables doc_set_paragraphs].
    apply Forall_fmap, Forall_true. intros t. cbn. split; [done|].
    apply Forall_fmap, Forall_true. intros r. cbn.
    apply Forall_fmap, Forall_true. by intros c.
  - apply apply_tone_body_texts.
  - apply apply_tone_table_texts.
Qed.

(** X10. Unless the resolved tone is urgent, tone styling without font
    overrides touches no run: each body paragraph only becomes
    left-aligned. Formal and friendly therefore style alike. *)
Theorem apply_tone_not_urgent (doc : document) (tone : string) :
  resolve_tone doc tone ≠ "urgent" →
  d_paragraphs (_apply_tone doc tone None None)
  = par_set_alignment (Some AlignLeft) <$> d_paragraphs doc.
Proof.
  intros Hne. unfold _apply_tone.
  cbn [d_paragraphs doc_set_tables doc_set_paragraphs].
  apply list_fmap_ext. intros i p _. cbn [truthy_str Ifsc.truthy andb].
  destruct (String.eqb_spec (resolve_tone doc tone) "urgent"); [done|].
  by cbn [andb].
Qed.

Lemma apply_tone_not_urgent_witness :
  d_paragraphs (_apply_tone Examples.final_notice_doc "friendly" None None)
  = par_set_alignment (Some AlignLeft) <$> d_paragraphs Examples.final_notice_doc.
Proof. apply apply_tone_not_urgent. by vm_compute. Defined.

Lemma resolve_tone_texts (doc1 doc2 : document) (tone : string) :
  body_texts doc1 = body_texts doc2 →
  resolve_tone doc1 tone = resolve_tone doc2 tone.
Proof.
  intros H. unfold resolve_tone, _detect_tone.
  assert (∀ d, (λ p, lower (paragraph_text p)) <$> d_paragraphs d
               = lower <$> body_texts d) as Hl.
  { intros d. unfold body_texts. by rewrite <- list_fmap_compose. }
  by rewrite !Hl, H.
Qed.

(** X11. Tone styling is idempotent: styling an already styled document
    with the same tone and overrides changes nothing more. *)
Theorem apply_tone_idempotent (doc : document) (tone : string)
    (font_name_override : option string) (font_size_override : option Z) :
  _apply_tone (_apply_tone doc tone font_name_override font_size_override)
    tone font_name_override font_size_override
  = _apply_tone doc tone font_name_override font_size_override.
Proof.
  set (doc' := _apply_tone doc tone font_name_override font_size_override).
  assert (resolve_tone doc' tone = resolve_tone doc tone) as Htone.
  { apply resolve_tone_texts, apply_tone_body_texts. }
  unfold _apply_tone at 1. rewrite Htone. subst doc'. unfold _apply_tone.
  unfold doc_set_tables, doc_set_paragraphs. cbn [d_paragraphs d_tables d_styles].
  f_equal.
  - rewrite <- list_fmap_compose. apply list_fmap_ext. intros i p _. cbn [compose].
    set (c1 := truthy_str font_name_override && truthy_int font_size_override).
    set (u := String.eqb (resolve_tone doc tone) "urgent").
    assert (∀ a q, paragraph_text (par_set_alignment a q) = paragraph_text q)
      as Halign by done.
    destruct c1, u; cbn [andb];
      try destruct (any_in ["notice"; "urgent"] (lower (paragraph_text p))) eqn:Hk;
      repeat (rewrite ?paragraph_text_map_runs, ?Halign by done; rewrite ?Hk);
      destruct p; unfold par_set_runs, par_set_alignment;
      cbn [p_runs p_style p_alignment p_space_before p_space_after
           p_line_spacing p_left_indent p_right_indent p_first_line_indent];
      f_equal; rewrite <- ?list_fmap_compose;
      try (apply list_fmap_ext; by intros j [] _); done.
  - rewrite <- list_fmap_compose. apply list_fmap_ext. intros i [g rows al st b] _.
    unfold compose, table_set_rows, table_set_alignment.
    cbn [t_rows t_grid t_alignment t_style t_tblBorders].
    f_equal. rewrite <- list_fmap_compose. apply list_fmap_ext. intros j [cs h hr] _.
    unfold compose, row_set_cells. cbn [row_cells row_height row_height_rule].
    f_equal. rewrite <- list_fmap_compose. apply list_fmap_ext. by intros k [] _.
Qed.

End ToneStylingFacts.

(** ** The template baseline *)

Section TemplateBaselineFacts.
Import PyStr Docx Notice Provenance.

Lemma scan_runs_from (rs : list run) (fn : option string) (fs : option Z) :
  name_from rs fn (scan_runs rs fn fs).1 ∧ size_from rs fs (scan_runs rs fn fs).2.
Proof.
  revert fn fs. induction rs as [|r rs IH]; intros fn fs; cbn [scan_runs].
  - split; by left.
  - set (fn1 := if truthy_str (r_font_name r) then _ else _).
    set (fs1 := if truthy_int (r_font_size r) then _ else _).
    assert (name_from (r :: rs) fn fn1) as Hn.
    { subst fn1. destruct (truthy_str (r_font_name r)) eqn:Ht; [|by left].
      right. exists r. split_and!; [left | done..]. }
    assert (size_from (r :: rs) fs fs1) as Hs.
    { subst fs1. destruct (truthy_int (r_font_size r)) eqn:Ht; [|by left].
      right. exists r. split_and!; [left | done..]. }
    destruct (truthy_str fn1 && truthy_int fs1); [done|].
    destruct (IH fn1 fs1) as [Hn' Hs']. split.
    + destruct Hn' as [->|(r' & ? & ? & ?)]; [done|].
      right. exists r'. split_and!; [by right | done..].
    + destruct Hs' as [->|(r' & ? & ? & ?)]; [done|].
      right. exists r'. split_and!; [by right | done..].
Qed.

Lemma scan_paragraphs_from (ps : list paragraph) (fn : option string)
    (fs : option Z) :
  name_from (ps ≫= p_runs) fn (scan_paragraphs ps fn fs).1
  ∧ size_from (ps ≫= p_runs) fs (scan_paragraphs ps fn fs).2.
Proof.
  revert fn fs. induction ps as [|p ps IH]; intros fn fs; cbn [scan_paragraphs].
  - split; by left.
  - destruct (scan_runs_from (p_runs p) fn fs) as [Hn Hs].
    destruct (scan_runs (p_runs p) fn fs) as [fn1 fs1]. cbn [fst snd] in *.
    assert (name_from ((p :: ps) ≫= p_runs) fn fn1) as Hn1.
    { destruct Hn as [->|(r & ? & ? & ?)]; [by left|]. right. exists r.
      split_and!; [|done..]. rewrite bind_cons. apply elem_of_app. by left. }
    assert (size_from ((p :: ps) ≫= p_runs) fs fs1) as Hs1.
    { destruct Hs as [->|(r & ? & ? & ?)]; [by left|]. right. exists r.
      split_and!; [|done..]. rewrite bind_cons. apply elem_of_app. by left. }
    destruct (truthy_str fn1 && truthy_int fs1); [done|].
    destruct (IH fn1 fs1) as [Hn' Hs']. split.
    + destruct Hn' as [->|(r' & ? & ? & ?)]; [done|].
      right. exists r'. split_and!; [|done..]. rewrite bind_cons.
      apply elem_of_app. by right.
    + destruct Hs' as [->|(r' & ? & ? & ?)]; [done|].
      right. exists r'. split_and!; [|done..]. rewrite bind_cons.
      apply elem_of_app. by right.
Qed.

(** X12. The baseline font is the fallback font or a non-empty font name
    of some run of the document, and the baseline size is the fallback
    size or the non-zero size in whole points of some run: nothing else
    is ever returned, and a size under one point never is. *)
Theorem template_baseline_provenance (doc : document) (fallback_font : string)
    (fallback_size : Z) (bl : template_baseline) :
  _extract_template_baseline doc fallback_font fallback_size = Ok bl →
  (tmpl_font bl = fallback_font
   ∨ (tmpl_font bl ≠ ""
      ∧ ∃ r, r ∈ all_runs doc ∧ r_font_name r = Some (tmpl_font bl)))
  ∧ (tmpl_size bl = fallback_size
     ∨ (tmpl_size bl ≠ 0%Z
        ∧ ∃ r s, r ∈ all_runs doc ∧ r_font_size r = Some s
                 ∧ tmpl_size bl = pt_int s)).
Proof.
  unfold _extract_template_baseline, all_runs.
  destruct (scan_paragraphs_from (d_paragraphs doc) None None) as [Hn Hs].
  destruct (scan_paragraphs (d_paragraphs doc) None None) as [fn fs].
  cbn [fst snd] in *.
  destruct (scan_tables (d_tables doc)) as [[[ws h] sp]|e];
    cbn [mbind result_bind]; [|done].
  intros [= <-]. cbn [tmpl_font tmpl_size]. split.
  - destruct (truthy_str fn) eqn:Ht; cbn [negb]; [|by left].
    destruct Hn as [->|(r & Hr & _ & ->)]; [done|].
    destruct (r_font_name r) as [name|] eqn:Hname; [|done]. cbn [default].
    right. split; [by destruct name|]. by exists r.
  - destruct (truthy_int fs) eqn:Ht; cbn [negb]; [|by left].
    destruct Hs as [->|(r & Hr & _ & ->)]; [done|].
    destruct (r_font_size r) as [s|] eqn:Hsize; [|done].
    cbn [fmap option_fmap option_map default] in *.
    right. split; [|by exists r, s].
    unfold truthy_int in Ht. apply negb_true_iff, Z.eqb_neq in Ht. done.
Qed.

Lemma template_baseline_provenance_witness :
  ("Times New Roman" = "Bookman Old Style"
   ∨ ("Times New Roman" ≠ ""
      ∧ ∃ r, r ∈ all_runs Examples.two_fonts_doc
             ∧ r_font_name r = Some "Times New Roman"))
  ∧ (12%Z = 8%Z
     ∨ (12%Z ≠ 0%Z
        ∧ ∃ r s, r ∈ all_runs Examples.two_fonts_doc ∧ r_font_size r = Some s
                 ∧ 12%Z = pt_int s)).
Proof.
  apply (template_baseline_provenance Examples.two_fonts_doc "Bookman Old Style" 8
           (mk_template_baseline "Times New Roman" 12 None None None)).
  reflexivity.
Defined.

End TemplateBaselineFacts.

(** ** The accounts table seen by the baseline scan *)

Section ScanTablesFacts.
Import PyStr Docx Notice MoreExamples.

Lemma scan_tables_skip (pre rest : list table) :
  Forall (λ t0, is_accounts_table t0 = Ok false) pre →
  scan_tables (pre ++ rest) = scan_tables rest.
Proof.
  induction 1 as [|t0 pre Ht0 _ IH]; [done|].
  cbn [app scan_tables]. by rewrite Ht0.
Qed.

(** X13. The header widths, row height and paragraph spacing of the
    baseline are those of the header row of the first table that passes
    the accounts-table test, one width per header cell; when no table
    passes it the three are [None]. *)
Theorem template_baseline_header (doc : document) (fallback_font : string)
    (fallback_size : Z) :
  (∀ pre t post header,
     d_tables doc = pre ++ t :: post →
     Forall (λ t0, is_accounts_table t0 = Ok false) pre →
     is_accounts_table t = Ok true →
     t_rows t !! 0 = Some header →
     ∃ bl,
       _extract_template_baseline doc fallback_font fallback_size = Ok bl
       ∧ header_widths bl = Some (c_width <$> row_cells header)
       ∧ header_row_height bl = row_height header
       ∧ header_spacing bl = first_paragraph_spacing header)
  ∧ (Forall (λ t0, is_accounts_table t0 = Ok false) (d_tables doc) →
     ∃ bl,
       _extract_template_baseline doc fallback_font fallback_size = Ok bl
       ∧ header_widths bl = None ∧ header_row_height bl = None
       ∧ header_spacing bl = None).
Proof.
  split.
  - intros pre t post header Htables Hpre Ht Hheader.
    unfold _extract_template_baseline.
    destruct (scan_paragraphs _ _ _) as [fn fs].
    rewrite Htables, (scan_tables_skip _ _ Hpre). cbn [scan_tables].
    rewrite Ht. cbn [mbind result_bind]. unfold item. rewrite Hheader.
    cbn [mbind result_bind]. eexists. split; [reflexivity|]. done.
  - intros Hall. unfold _extract_template_baseline.
    destruct (scan_paragraphs _ _ _) as [fn fs].
    rewrite <- (app_nil_r (d_tables doc)), (scan_tables_skip _ _ Hall).
    cbn [scan_tables mbind result_bind]. eexists. split; [reflexivity|]. done.
Qed.

(** X14. A three-column table without rows that comes before any
    accounts table makes the baseline scan raise [IndexError], and
    [update_word_template] then returns [False] for every bank, account
    list and option: the defect of the template is not reported apart. *)
Theorem rowless_table_fails_notice (doc : document) (pre post : list table)
    (t : table) :
  d_tables doc = pre ++ t :: post →
  Forall (λ t0, is_accounts_table t0 = Ok false) pre →
  column_count t = 3 →
  t_rows t = [] →
  (∀ fallback_font fallback_size,
     _extract_template_baseline doc fallback_font fallback_size = Raise IndexError)
  ∧ (∀ w template_file output_file bank_name accounts placeholder tone font_name
       font_size,
       open_document w template_file = Ok doc →
       update_word_template w template_file output_file bank_name accounts
         placeholder tone font_name font_size = false).
Proof.
  intros Htables Hpre Hc Hrows.
  assert (∀ f s, _extract_template_baseline doc f s = Raise IndexError) as Hraise.
  { intros f s. unfold _extract_template_baseline.
    destruct (scan_paragraphs _ _ _) as [fn fs].
    rewrite Htables, (scan_tables_skip _ _ Hpre). cbn [scan_tables].
    unfold is_accounts_table. rewrite Hc, Hrows. done. }
  split; [done|]. intros w tf ofile bank accounts ph tn fname fsize Hopen.
  unfold update_word_template. rewrite Hopen. cbn [mbind result_bind].
  unfold update_document, after_accounts_table. by rewrite Hraise.
Qed.

Lemma rowless_table_fails_notice_witness :
  update_word_template rowless_world "template.docx" "out.docx"
    "STATE BANK OF INDIA" Examples.one_account "ICICI BANK" "formal"
    "Bookman Old Style" 8 = false.
Proof.
  apply (rowless_table_fails_notice rowless_doc [] [Examples.accounts_table]
           rowless_table); reflexivity || constructor.
Defined.

End ScanTablesFacts.

(** ** The nodal-officer baseline *)

Section NodalBaselineFacts.
Import PyStr Docx Notice Provenance.

Lemma nodal_scan_runs_first (rs : list run) (fn : option string) (fs : option Z)
    (b : option bool) (fb_font : string) (fb_size : Z) :
  let '(fn', fs', b') := nodal_scan_runs rs fn fs b in
  (if negb (truthy_str fn') then fb_font else default fb_font fn')
  = (if truthy_str fn then default fb_font fn
     else default fb_font (first_font_name rs))
  ∧ (if negb (truthy_int fs') then fb_size else default fb_size fs')
    = (if truthy_int fs then default fb_size fs
       else default fb_size (first_point_size rs))
  ∧ b' = match b with Some _ => b | None => first_bold rs end.
Proof.
  revert fn fs b. induction rs as [|r rs IH]; intros fn fs b.
  - cbn [nodal_scan_runs first_font_name first_point_size first_bold].
    split_and!; [by destruct (truthy_str fn) | | by destruct b].
    destruct (truthy_int fs) eqn:Ht; [done|]. cbn [negb default].
    by destruct fs.
  - cbn [nodal_scan_runs first_font_name first_point_size first_bold].
    set (fn1 := if truthy_str (r_font_name r) && negb (truthy_str fn) then _ else _).
    set (fs1 := if truthy_int (r_font_size r) && negb (truthy_int fs) then _ else _).
    set (b1 := match b, r_bold r with None, Some b0 => Some b0 | _, _ => b end).
    specialize (IH fn1 fs1 b1).
    destruct (nodal_scan_runs rs fn1 fs1 b1) as [[fn' fs'] b'].
    destruct IH as (-> & -> & ->). split_and!.
    + subst fn1. destruct (truthy_str fn) eqn:Hfn; cbn [negb andb].
      * rewrite andb_false_r. by rewrite Hfn.
      * rewrite andb_true_r. destruct (truthy_str (r_font_name r)) eqn:Hr.
        -- by rewrite Hr.
        -- rewrite Hfn. done.
    + subst fs1. destruct (truthy_int fs) eqn:Hfs; cbn [negb andb].
      * rewrite andb_false_r. by rewrite Hfs.
      * rewrite andb_true_r. destruct (truthy_int (r_font_size r)) eqn:Hr; cbn [andb].
        -- destruct (truthy_int (pt_int <$> r_font_size r)); done.
        -- by rewrite Hfs.
    + subst b1. by destruct b, (r_bold r).
Qed.

Lemma after_first_nodal_split (pre : list paragraph) (lab : paragraph)
    (rest : list paragraph) :
  Forall (λ p, is_nodal (paragraph_text p) = false) pre →
  is_nodal (paragraph_text lab) = true →
  after_first_nodal (pre ++ lab :: rest) = Some (head rest).
Proof.
  intros Hpre Hlab. induction Hpre as [|p pre Hp _ IH]; cbn [app after_first_nodal].
  - by rewrite Hlab.
  - by rewrite Hp.
Qed.

Lemma after_first_nodal_none (ps : list paragraph) :
  Forall (λ p, is_nodal (paragraph_text p) = false) ps →
  after_first_nodal ps = None.
Proof.
  induction 1 as [|p ps Hp _ IH]; [done|]. cbn [after_first_nodal]. by rewrite Hp.
Qed.

(** X15. The nodal baseline is read off the paragraph that follows the
    first labelled paragraph: its style, alignment, spacing and indent,
    and from its runs the first non-empty font name, the first size of at
    least one point and the first explicit bold setting, each on its own;
    the fallback font and size stand in for a name or size that no run
    has. *)
Theorem nodal_baseline_first_wins (doc : document) (fallback_font : string)
    (fallback_size : Z) (pre : list paragraph) (lab np : paragraph)
    (rest : list paragraph) :
  d_paragraphs doc = pre ++ lab :: np :: rest →
  Forall (λ p, is_nodal (paragraph_text p) = false) pre →
  is_nodal (paragraph_text lab) = true →
  _extract_nodal_baseline doc fallback_font fallback_size
  = mk_nodal_baseline (p_style np) (p_alignment np)
      (Some (p_space_before np, p_space_after np, p_line_spacing np))
      (Some (p_left_indent np, p_right_indent np, p_first_line_indent np))
      (default fallback_font (first_font_name (p_runs np)))
      (default fallback_size (first_point_size (p_runs np)))
      (first_bold (p_runs np)).
Proof.
  intros Hps Hpre Hlab. unfold _extract_nodal_baseline.
  rewrite Hps, (after_first_nodal_split _ _ _ Hpre Hlab). cbn [head].
  pose proof (nodal_scan_runs_first (p_runs np) None None None
                fallback_font fallback_size) as H.
  destruct (nodal_scan_runs (p_runs np) None None None) as [[fn fs] b].
  destruct H as (Hn & Hs & ->). cbn [truthy_str Ifsc.truthy truthy_int] in Hn, Hs.
  by rewrite Hn, Hs.
Qed.

Lemma nodal_baseline_first_wins_witness :
  _extract_nodal_baseline
    (mk_document
       [Examples.text_paragraph "Nodal Officer";
        new_paragraph
          [mk_run "Dear " (Some "Arial") None None None;
           mk_run "Sir" (Some "Times New Roman") (Some (Pt 12)) (Some true) None]]
       [] ∅)
    "Bookman Old Style" 8
  = mk_nodal_baseline None None (Some (None, None, None)) (Some (None, None, None))
      "Arial" 12 (Some true).
Proof.
  apply (nodal_baseline_first_wins _ "Bookman Old Style" 8 []
           (Examples.text_paragraph "Nodal Officer")
           (new_paragraph
              [mk_run "Dear " (Some "Arial") None None None;
               mk_run "Sir" (Some "Times New Roman") (Some (Pt 12)) (Some true) None])
           []); [reflexivity | constructor | reflexivity].
Defined.

(** X16. With no labelled paragraph, or with the first label on the last
    paragraph, the nodal baseline captures nothing: no style, alignment,
    spacing, indent or bold, and the fallback font and size. *)
Theorem nodal_baseline_without_follower (doc : document) (fallback_font : string)
    (fallback_size : Z) :
  (Forall (λ p, is_nodal (paragraph_text p) = false) (d_paragraphs doc)
   ∨ ∃ pre lab,
       d_paragraphs doc = pre ++ [lab]
       ∧ Forall (λ p, is_nodal (paragraph_text p) = false) pre
       ∧ is_nodal (paragraph_text lab) = true) →
  _extract_nodal_baseline doc fallback_font fallback_size
  = mk_nodal_baseline None None None None fallback_font fallback_size None.
Proof.
  intros [Hall|(pre & lab & Hps & Hpre & Hlab)]; unfold _extract_nodal_baseline.
  - by rewrite (after_first_nodal_none _ Hall).
  - by rewrite Hps, (after_first_nodal_split _ _ _ Hpre Hlab).
Qed.

Lemma nodal_baseline_without_follower_witness :
  _extract_nodal_baseline Examples.plain_template "Bookman Old Style" 8
  = mk_nodal_baseline None None None None "Bookman Old Style" 8 None.
Proof.
  apply nodal_baseline_without_follower. left. by repeat constructor.
Defined.

End NodalBaselineFacts.

(** ** The rows appended for the accounts *)

Section DataRowFacts.
Import PyStr Docx Notice.




End DataRowFacts.

(** ** Templates without an accounts table, and regular templates *)

Section RegularFacts.
Import PyStr Docx Notice Shape.

(** X18. When no table passes the accounts-table test (none has three
    grid columns and a header row with "account" and "ifsc"), the
    accounts-table loop ends without raising and leaves every table as
    it is, whatever the accounts are. *)
Theorem update_accounts_table_no_match (bl : template_baseline)
    (styles : gmap string style_type) (accounts : list Grouping.account)
    (tables : list table) :
  Forall (λ t, is_accounts_table t = Ok false) tables →
  update_accounts_table bl styles accounts tables = Ok tables.
Proof.
  induction 1 as [|t tables Ht _ IH]; [done|].
  cbn [update_accounts_table]. by rewrite Ht, IH.
Qed.

Lemma update_accounts_table_no_match_witness :
  update_accounts_table
    (mk_template_baseline "Arial" 10 None None None) ∅ Examples.one_account
    [narrow_table]
  = Ok [narrow_table].
Proof. apply update_accounts_table_no_match. by repeat constructor. Defined.










End RegularFacts.

(** ** Templates without the "nodal officer" label *)

Section NoLabelFacts.
Import PyStr Docx Notice.

Lemma nodal_paragraphs_no_label (bank_name : string) (nb : nodal_baseline)
    (styles : gmap string style_type) (ps : list paragraph) :
  Forall (λ p, is_nodal (paragraph_text p) = false) ps →
  nodal_paragraphs bank_name nb styles ps = ps.
Proof.
  intros Hall. unfold nodal_paragraphs. generalize (seq 0 (length ps)).
  intros l. induction l as [|i l IH]; cbn [foldl]; [done|].
  assert (nodal_paragraph_visit bank_name nb styles ps i = ps) as ->; [|done].
  unfold nodal_paragraph_visit. destruct (ps !! i) as [p|] eqn:Hp; [|done].
  rewrite Forall_lookup in Hall. by rewrite (Hall _ _ Hp).
Qed.

Lemma nodal_cells_no_label (bank_name : string) (nb : nodal_baseline)
    (styles : gmap string style_type) (t : table) :
  Forall (λ r, Forall (λ c, is_nodal (cell_text c) = false) (row_cells r))
    (t_rows t) →
  nodal_cells bank_name nb styles t = Ok t.
Proof.
  intros Hall. unfold nodal_cells.
  destruct (for_each_total (nodal_row_visit bank_name nb styles)
              (λ rows, rows = t_rows t) (seq 0 (length (t_rows t))) (t_rows t))
    as (rows' & -> & ->); [done| |].
  - intros s r [_ Hr]%elem_of_seq ->. cbn [Nat.add] in Hr.
    exists (t_rows t). split; [|done].
    destruct (lookup_lt_is_Some_2 (t_rows t) r Hr) as [r0 Hr0].
    unfold nodal_row_visit, item. rewrite Hr0. cbn [mbind result_bind].
    destruct (for_each_total (nodal_cell_visit bank_name nb styles r)
                (λ rows, rows = t_rows t) (seq 0 (length (row_cells r0)))
                (t_rows t)) as (s' & -> & ->); [done| |done].
    intros s c [_ Hc]%elem_of_seq ->. cbn [Nat.add] in Hc.
    exists (t_rows t). split; [|done].
    destruct (lookup_lt_is_Some_2 (row_cells r0) c Hc) as [c0 Hc0].
    unfold nodal_cell_visit, table_cell, item. rewrite Hr0.
    cbn [mbind result_bind]. rewrite Hc0. cbn [mbind result_bind].
    rewrite Forall_lookup in Hall. pose proof (Hall _ _ Hr0) as Hrow.
    rewrite Forall_lookup in Hrow. by rewrite (Hrow _ _ Hc0).
  - cbn [mbind result_bind]. by destruct t.
Qed.

Lemma nodal_tables_no_label (bank_name : string) (nb : nodal_baseline)
    (styles : gmap string style_type) (tables : list table) :
  Forall (λ t, Forall (λ r, Forall (λ c, is_nodal (cell_text c) = false)
                              (row_cells r)) (t_rows t)) tables →
  nodal_tables bank_name nb styles tables = Ok tables.
Proof.
  induction 1 as [|t tables Ht _ IH]; [done|]. cbn [nodal_tables].
  by rewrite (nodal_cells_no_label _ _ _ _ Ht), IH.
Qed.

(** X20. When, after the accounts-table step, no body paragraph and no
    table cell contains "nodal officer", the two nodal-officer loops
    change nothing and do not raise, whatever the shape of the tables:
    the notice is the document as the accounts-table step left it. *)
Theorem no_label_no_nodal_change (doc doc1 : document) (bank_name : string)
    (accounts : list Grouping.account) (placeholder tone font_name : string)
    (font_size : Z) (bl : template_baseline) :
  after_accounts_table doc bank_name accounts placeholder tone font_name font_size
  = Ok (bl, doc1) →
  Forall (λ p, is_nodal (paragraph_text p) = false) (d_paragraphs doc1) →
  Forall (λ t, Forall (λ r, Forall (λ c, is_nodal (cell_text c) = false)
                              (row_cells r)) (t_rows t)) (d_tables doc1) →
  update_document doc bank_name accounts placeholder tone font_name font_size
  = Ok doc1.
Proof.
  intros Hacc Hps Hts. unfold update_document. rewrite Hacc.
  cbn [mbind result_bind]. rewrite (nodal_paragraphs_no_label _ _ _ _ Hps).
  cbn [d_tables d_styles doc_set_paragraphs].
  rewrite (nodal_tables_no_label _ _ _ _ Hts). cbn [mbind result_bind].
  by destruct doc1.
Qed.

Lemma no_label_no_nodal_change_witness :
  ∃ bl doc1,
    after_accounts_table Examples.one_table_doc "HDFC BANK" Examples.one_account
      "ICICI BANK" "formal" "Bookman Old Style" 8 = Ok (bl, doc1)
    ∧ update_document Examples.one_table_doc "HDFC BANK" Examples.one_account
        "ICICI BANK" "formal" "Bookman Old Style" 8 = Ok doc1.
Proof.
  eexists _, _. split; [vm_compute; reflexivity|].
  eapply no_label_no_nodal_change; [vm_compute; reflexivity | |];
    repeat constructor.
Defined.

End NoLabelFacts.

(** ** What a generated notice keeps of its template *)

Section FrameFacts.
Import PyStr Docx Notice.

(** The steps of [update_document], spelled out. *)
Lemma update_document_unfold (doc final : document) (bank_name : string)
    (accounts : list Grouping.account) (placeholder tone font_name : string)
    (font_size : Z) :
  update_document doc bank_name accounts placeholder tone font_name font_size
  = Ok final →
  let doc0 := after_replacement doc bank_name placeholder tone in
  ∃ bl tables1 tables2 nb,
    update_accounts_table bl (d_styles doc) accounts (d_tables doc0) = Ok tables1
    ∧ nb = _extract_nodal_baseline (doc_set_tables tables1 doc0)
             (tmpl_font bl) (tmpl_size bl)
    ∧ nodal_tables bank_name nb (d_styles doc) tables1 = Ok tables2
    ∧ final
      = mk_document
          (nodal_paragraphs bank_name nb (d_styles doc) (d_paragraphs doc0))
          tables2 (d_styles doc).
Proof.
  intros Hu doc0. unfold update_document, after_accounts_table in Hu.
  destruct (_extract_template_baseline doc font_name font_size) as [bl|e];
    cbn [mbind result_bind] in Hu; [|done].
  fold doc0 in Hu.
  assert (d_styles doc0 = d_styles doc) as Hst by done.
  rewrite Hst in Hu.
  destruct (update_accounts_table bl (d_styles doc) accounts (d_tables doc0))
    as [tables1|e] eqn:H1; cbn [mbind result_bind] in Hu; [|done].
  cbn [d_styles d_tables d_paragraphs doc_set_tables doc_set_paragraphs] in Hu.
  rewrite Hst in Hu.
  destruct (nodal_tables _ _ _ tables1) as [tables2|e] eqn:H2;
    cbn [mbind result_bind] in Hu; [|done].
  injection Hu as <-. exists bl, tables1, tables2. eexists.
  split_and!; [done | reflexivity | exact H2 |].
  unfold doc_set_tables, doc_set_paragraphs. cbn [d_paragraphs d_styles d_tables].
  by rewrite Hst.
Qed.

Lemma regenerate_table_frame (bl : template_baseline)
    (styles : gmap string style_type) (accounts : list Grouping.account)
    (t t' : table) :
  regenerate_table bl styles accounts t = Ok t' →
  t_grid t' = t_grid t ∧ t_alignment t' = t_alignment t.
Proof.
  unfold regenerate_table.
  destruct (item (t_rows t) 0) as [header|e]; cbn [mbind result_bind]; [|done].
  destruct (for_each _ _ _) as [rows|e]; cbn [mbind result_bind]; [|done].
  intros [= <-]. unfold try_set_table_grid. by repeat case_match.
Qed.

Lemma update_accounts_table_frame (bl : template_baseline)
    (styles : gmap string style_type) (accounts : list Grouping.account)
    (tables tables' : list table) :
  update_accounts_table bl styles accounts tables = Ok tables' →
  Forall2 (λ t t', t_grid t' = t_grid t ∧ t_alignment t' = t_alignment t)
    tables tables'.
Proof.
  revert tables'. induction tables as [|t tables IH]; intros tables';
    cbn [update_accounts_table].
  - intros [= <-]. constructor.
  - destruct (is_accounts_table t) as [[]|e]; cbn [mbind result_bind]; [| |done].
    + destruct (regenerate_table bl styles accounts t) as [t'|e] eqn:Hreg;
        cbn [mbind result_bind]; [|done].
      intros [= <-]. constructor; [by eapply regenerate_table_frame|].
      by apply Forall_Forall2_diag, Forall_true.
    + destruct (update_accounts_table bl styles accounts tables) as [rest'|e];
        cbn [mbind result_bind]; [|done].
      intros [= <-]. constructor; [done | by apply IH].
Qed.

Lemma nodal_tables_frame (bank_name : string) (nb : nodal_baseline)
    (styles : gmap string style_type) (tables tables' : list table) :
  nodal_tables bank_name nb styles tables = Ok tables' →
  Forall2 (λ t t', t_grid t' = t_grid t ∧ t_alignment t' = t_alignment t)
    tables tables'.
Proof.
  intros H%nodal_tables_Forall2. eapply Forall2_impl; [exact H|].
  intros t t' (Heq & _)%nodal_cells_spec. by rewrite Heq.
Qed.

Lemma after_replacement_frame (doc : document)
    (bank_name placeholder tone : string) :
  Forall2 (λ t t', t_grid t' = t_grid t ∧ t_alignment t' = Some TableCenter)
    (d_tables doc) (d_tables (after_replacement doc bank_name placeholder tone)).
Proof.
  unfold after_replacement, replace_in_document, _apply_tone.
  cbn [d_tables doc_set_tables doc_set_paragraphs].
  rewrite <- list_fmap_compose. apply Forall2_fmap_r, Forall_Forall2_diag.
  by apply Forall_true.
Qed.

Lemma tables_frame (doc final : document) (bank_name : string)
    (accounts : list Grouping.account) (placeholder tone font_name : string)
    (font_size : Z) :
  update_document doc bank_name accounts placeholder tone font_name font_size
  = Ok final →
  Forall2 (λ t t', t_grid t' = t_grid t ∧ t_alignment t' = Some TableCenter)
    (d_tables doc) (d_tables final).
Proof.
  intros (bl & tables1 & tables2 & nb & H1 & _ & H2 & ->)%update_document_unfold.
  cbn [d_tables].
  pose proof (after_replacement_frame doc bank_name placeholder tone) as H0.
  apply update_accounts_table_frame in H1. apply nodal_tables_frame in H2.
  assert (Forall2 (λ t t', t_grid t' = t_grid t ∧ t_alignment t' = t_alignment t)
            (d_tables (after_replacement doc bank_name placeholder tone)) tables2)
    as H12.
  { eapply Forall2_trans; [|exact H1|exact H2].
    intros x y z [? ?] [? ?]. split; congruence. }
  eapply Forall2_trans; [|exact H0|exact H12].
  intros x y z [? ?] [? ?]. split; congruence.
Qed.

(** X21. A generated notice has as many body paragraphs and as many
    tables as its template, every table keeps its grid columns, and the
    styles of the document are untouched. *)
Theorem update_document_keeps_frame (doc final : document) (bank_name : string)
    (accounts : list Grouping.account) (placeholder tone font_name : string)
    (font_size : Z) :
  update_document doc bank_name accounts placeholder tone font_name font_size
  = Ok final →
  length (d_paragraphs final) = length (d_paragraphs doc)
  ∧ d_styles final = d_styles doc
  ∧ Forall2 (λ t t', t_grid t' = t_grid t) (d_tables doc) (d_tables final).
Proof.
  intros Hu. split_and!.
  - apply update_document_unfold in Hu
      as (bl & tables1 & tables2 & nb & _ & _ & _ & ->).
    cbn [d_paragraphs]. unfold nodal_paragraphs. rewrite reached_length.
    unfold after_replacement, replace_in_document, _apply_tone.
    cbn [d_paragraphs doc_set_tables doc_set_paragraphs].
    by rewrite !length_fmap.
  - by apply update_document_unfold in Hu
      as (bl & tables1 & tables2 & nb & _ & _ & _ & ->).
  - eapply Forall2_impl; [by eapply tables_frame|]. by intros t t' [? _].
Qed.

Lemma update_document_keeps_frame_witness :
  ∃ final,
    update_document Examples.one_table_doc "HDFC BANK" Examples.one_account
      "ICICI BANK" "formal" "Bookman Old Style" 8 = Ok final
    ∧ length (d_paragraphs final) = length (d_paragraphs Examples.one_table_doc)
    ∧ d_styles final = d_styles Examples.one_table_doc
    ∧ Forall2 (λ t t', t_grid t' = t_grid t)
        (d_tables Examples.one_table_doc) (d_tables final).
Proof.
  eexists. split; [vm_compute; reflexivity|].
  apply (update_document_keeps_frame Examples.one_table_doc _ "HDFC BANK"
           Examples.one_account "ICICI BANK" "formal" "Bookman Old Style" 8).
  vm_compute. reflexivity.
Defined.

Lemma nodal_paragraphs_Forall (Q : paragraph → Prop) (bank_name : string)
    (nb : nodal_baseline) (styles : gmap string style_type)
    (ps : list paragraph) :
  (∀ p, Q p → Q (_apply_baseline_to_paragraph p bank_name nb styles)) →
  Forall Q ps → Forall Q (nodal_paragraphs bank_name nb styles ps).
Proof.
  intros HQ. unfold nodal_paragraphs. generalize (seq 0 (length ps)).
  intros l. revert ps. induction l as [|i l IH]; intros ps Hps; cbn [foldl]; [done|].
  apply IH. unfold nodal_paragraph_visit. repeat case_match; try done.
  apply Forall_alter; [done|]. intros q _ Hq. by apply HQ.
Qed.

Lemma apply_baseline_alignment (q : paragraph) (text : string)
    (nb : nodal_baseline) (styles : gmap string style_type) :
  p_alignment (_apply_baseline_to_paragraph q text nb styles)
  = match nb_alignment nb with
    | Some a => Some a
    | None => p_alignment q
    end.
Proof.
  unfold _apply_baseline_to_paragraph, try_set_style.
  destruct (nb_indent nb) as [[[[?|] [?|]] [?|]]|],
    (nb_spacing nb) as [[[[?|] [?|]] [?|]]|], (nb_alignment nb);
    cbn; repeat case_match; done.
Qed.

Lemma after_first_nodal_elem (ps : list paragraph) (np : paragraph) :
  after_first_nodal ps = Some (Some np) → np ∈ ps.
Proof.
  induction ps as [|p ps IH]; [done|]. cbn [after_first_nodal].
  destruct (is_nodal (paragraph_text p)).
  - destruct ps as [|p' ps]; cbn [head]; [done|]. intros [= ->].
    apply elem_of_cons. right. apply elem_of_cons. by left.
  - intros H. apply elem_of_cons. right. by apply IH.
Qed.

Lemma extract_nodal_alignment (doc : document) (fallback_font : string)
    (fallback_size : Z) :
  Forall (λ p, p_alignment p = Some AlignLeft) (d_paragraphs doc) →
  nb_alignment (_extract_nodal_baseline doc fallback_font fallback_size) = None
  ∨ nb_alignment (_extract_nodal_baseline doc fallback_font fallback_size)
    = Some AlignLeft.
Proof.
  intros Hall. unfold _extract_nodal_baseline.
  destruct (after_first_nodal (d_paragraphs doc)) as [[np|]|] eqn:Hnp;
    [|by left..].
  destruct (nodal_scan_runs (p_runs np) None None None) as [[fn fs] b].
  cbn [nb_alignment]. right.
  rewrite Forall_forall in Hall. by apply Hall, after_first_nodal_elem.
Qed.

(** X22. In a generated notice every body paragraph is left-aligned and
    every table is centred: the tone step sets both, and the nodal
    baseline, captured after the tone step, carries no other
    alignment. *)
Theorem update_document_alignment (doc final : document) (bank_name : string)
    (accounts : list Grouping.account) (placeholder tone font_name : string)
    (font_size : Z) :
  update_document doc bank_name accounts placeholder tone font_name font_size
  = Ok final →
  Forall (λ p, p_alignment p = Some AlignLeft) (d_paragraphs final)
  ∧ Forall (λ t, t_alignment t = Some TableCenter) (d_tables final).
Proof.
  intros Hu. split.
  - apply update_document_unfold in Hu
      as (bl & tables1 & tables2 & nb & _ & Hnb & _ & ->).
    cbn [d_paragraphs].
    assert (Forall (λ p, p_alignment p = Some AlignLeft)
              (d_paragraphs (after_replacement doc bank_name placeholder tone)))
      as Hleft.
    { unfold after_replacement, replace_in_document, _apply_tone.
      cbn [d_paragraphs doc_set_tables doc_set_paragraphs].
      rewrite !Forall_fmap. apply Forall_true. intros p. unfold compose.
      unfold replace_placeholder. by case_match. }
    apply nodal_paragraphs_Forall; [|done].
    intros p Hp. rewrite apply_baseline_alignment.
    destruct (extract_nodal_alignment
                (doc_set_tables tables1
                   (after_replacement doc bank_name placeholder tone))
                (tmpl_font bl) (tmpl_size bl) Hleft) as [H|H];
      rewrite <- Hnb in H; by rewrite H.
  - apply tables_frame in Hu. eapply Forall2_Forall_r; [exact Hu|].
    apply Forall_true. by intros t t' [_ ?].
Qed.

Lemma update_document_alignment_witness :
  ∃ final,
    update_document Examples.two_labels_doc "HDFC BANK" Examples.one_account
      "ICICI BANK" "formal" "Bookman Old Style" 8 = Ok final
    ∧ Forall (λ p, p_alignment p = Some AlignLeft) (d_paragraphs final)
    ∧ Forall (λ t, t_alignment t = Some TableCenter) (d_tables final).
Proof.
  eexists. split; [vm_compute; reflexivity|].
  apply (update_document_alignment Examples.two_labels_doc _ "HDFC BANK"
           Examples.one_account "ICICI BANK" "formal" "Bookman Old Style" 8).
  vm_compute. reflexivity.
Defined.

End FrameFacts.

(** ** The files of a batch *)

Section OutputFileFacts.
Import PyStr Ifsc Grouping Batch.

Lemma length_append (x y : string) :
  String.length (x +:+ y) = String.length x + String.length y.
Proof.
  induction x as [|c x IH]; [done|].
  change (String c x +:+ y) with (String c (x +:+ y)).
  cbn [String.length]. by rewrite IH.
Qed.

Lemma append_suffix_inj (x x' y y' : string) :
  String.length y = String.length y' → x +:+ y = x' +:+ y' → x = x' ∧ y = y'.
Proof.
  intros Hlen. revert x'. induction x as [|c x IH]; intros [|c' x'].
  - done.
  - change ("" +:+ y) with y. intros ->. rewrite length_append in Hlen.
    cbn [String.length] in Hlen. lia.
  - change ("" +:+ y') with y'. intros <-. rewrite length_append in Hlen.
    cbn [String.length] in Hlen. lia.
  - change (String c x +:+ y) with (String c (x +:+ y)).
    change (String c' x' +:+ y') with (String c' (x' +:+ y')).
    intros [= -> H]. destruct (IH _ H) as [-> ->]. done.
Qed.

Lemma path_join_inj (d x y : string) : path_join d x = path_join d y → x = y.
Proof.
  unfold path_join. destruct (is_empty d || ends_with_slash d).
  - apply (inj (String.app d)).
  - intros H%(inj (String.app d)). by apply (inj (String.app "/")) in H.
Qed.

Lemma output_file_for_inj (a : args) (b b' k k' : string) :
  String.length k = String.length k' →
  output_file_for a b k = output_file_for a b' k' → k = k'.
Proof.
  intros Hlen H%path_join_inj. apply (inj (String.app "Notice_")) in H.
  apply append_suffix_inj in H as [_ H].
  - apply (inj (String.app "_")) in H. by apply append_suffix_inj in H as [? _].
  - rewrite !length_append. cbn [String.length]. lia.
Qed.

(** X23. The notices of one batch go to pairwise different files: the
    file name ends with the group's code, and the codes of the groups
    are distinct and all eleven characters long. *)
Theorem output_files_distinct (w : Notice.world) (a : args) (rows : list row) :
  ∃ st,
    group_rows rows = Ok st
    ∧ NoDup (rep_output_file <$> reports (generate_notices w a (grouped st))).
Proof.
  destruct (group_rows_inv rows) as (st & Hst & Hall & Hnd & _).
  exists st. split; [done|]. unfold generate_notices.
  rewrite generate_notices_from. cbn [reports app].
  rewrite <- list_fmap_compose.
  assert (rep_output_file ∘ report_for w a
          = (λ k, output_file_for a (get_bank_name (Some k)) k) ∘ fst) as ->.
  { done. }
  rewrite list_fmap_compose. fold (keys (grouped st)).
  apply NoDup_fmap_2_strong; [|done].
  intros k k' Hk Hk'. apply output_file_for_inj.
  assert (∀ x, x ∈ keys (grouped st) → String.length x = 11) as Hlen.
  { intros x (kv & -> & Hkv)%list_elem_of_fmap.
    rewrite Forall_forall in Hall. destruct (Hall _ Hkv) as [Hv _].
    destruct (decide (String.length kv.1 = 11)) as [?|Hne]; [done|].
    rewrite validate_ifsc_wrong_length in Hv by done. by injection Hv. }
  by rewrite (Hlen _ Hk), (Hlen _ Hk').
Qed.

End OutputFileFacts.

(** ** From the sheet to the notices *)

Section MainFacts.
Import PyStr Ifsc Grouping GroupedBy Sheet Batch Main.

Lemma first_seen_nil (l : list string) : first_seen l = [] ↔ l = [].
Proof. by destruct l. Qed.

Lemma read_excel_data_resolved (rd : readers) (file : string) (df : frame)
    (a n i : string) :
  (if endswith ".csv" (lower file) then read_csv rd file else read_excel rd file)
  = Ok df →
  first_with_role AccountNumber (strip <$> df_columns df) = Some a →
  first_with_role AccountName (strip <$> df_columns df) = Some n →
  first_with_role IfscCode (strip <$> df_columns df) = Some i →
  ∃ st,
    read_excel_data rd file = Some (grouped st)
    ∧ loop_state (rows_of df a n i) st.
Proof.
  intros Hopen Ha Hn Hi. unfold read_excel_data. rewrite Hopen.
  cbn [mbind result_bind]. rewrite find_columns_roles. unfold all_found.
  cbn [account_col name_col ifsc_col].
  pose proof (first_with_role_truthy AccountNumber _ _ ltac:(intros [=]) Ha) as Ta.
  pose proof (first_with_role_truthy AccountName _ _ ltac:(intros [=]) Hn) as Tn.
  pose proof (first_with_role_truthy IfscCode _ _ ltac:(intros [=]) Hi) as Ti.
  rewrite Ha, Hn, Hi, Ta, Tn, Ti. cbn [andb negb default]. unfold id.
  destruct (group_rows_loop_state (rows_of df a n i)) as (st & -> & Hst).
  cbn [mbind result_bind]. by exists st.
Qed.

(** X24. When both files exist, the output directory can be made, the
    sheet can be read and its three columns are found, [main] writes one
    notice report per distinct valid code, in the order in which the
    codes first occur in the sheet, and counts the saved ones; when no
    row has a valid code it stops before the loop, as it does for a
    sheet that cannot be read. *)
Theorem main_one_notice_per_valid_code (fs : files) (rd : readers)
    (w : Notice.world) (args : cli) (df : frame) (a n i : string) :
  path_exists fs (excel_file args) = true →
  path_exists fs (template_file (notice_args args)) = true →
  makedirs fs (output_dir (notice_args args)) = Ok tt →
  (if endswith ".csv" (lower (excel_file args))
   then read_csv rd (excel_file args) else read_excel rd (excel_file args))
  = Ok df →
  first_with_role AccountNumber (strip <$> df_columns df) = Some a →
  first_with_role AccountName (strip <$> df_columns df) = Some n →
  first_with_role IfscCode (strip <$> df_columns df) = Some i →
  (valid_codes (rows_of df a n i) = [] → main fs rd w args = Ok None)
  ∧ (valid_codes (rows_of df a n i) ≠ [] →
     ∃ p, main fs rd w args = Ok (Some p)
          ∧ rep_ifsc <$> reports p = first_seen (valid_codes (rows_of df a n i))
          ∧ success_count p = saved_count (reports p)).
Proof.
  intros He Ht Hm Hopen Ha Hn Hi.
  destruct (read_excel_data_resolved rd _ df a n i Hopen Ha Hn Hi)
    as (st & Hread & _ & Hkeys & _).
  unfold main. rewrite He, Ht, Hm, Hread. cbn [negb mbind result_bind].
  split.
  - intros Hnil. rewrite Hnil in Hkeys. cbn [first_seen] in Hkeys.
    by destruct (grouped st).
  - intros Hne.
    assert (no_groups (Some (grouped st)) = false) as ->.
    { destruct (grouped st) as [|g gs]; [|done].
      symmetry in Hkeys. by apply (proj1 (first_seen_nil _)) in Hkeys. }
    eexists. split; [reflexivity|]. cbn [default]. unfold id, generate_notices.
    rewrite generate_notices_from. cbn [reports success_count app Nat.add].
    split; [|done]. rewrite <- Hkeys, <- list_fmap_compose. done.
Qed.

Lemma main_one_notice_per_valid_code_witness :
  ∃ p,
    main MoreExamples.all_present MoreExamples.sample_readers
      Shape.one_table_world MoreExamples.sample_cli = Ok (Some p)
    ∧ rep_ifsc <$> reports p = ["HDFC0001234"]
    ∧ success_count p = saved_count (reports p).
Proof.
  refine (proj2 (main_one_notice_per_valid_code MoreExamples.all_present
                   MoreExamples.sample_readers Shape.one_table_world
                   MoreExamples.sample_cli MoreExamples.sample_frame
                   "Account Number" "Account Name" "IFSC Code"
                   eq_refl eq_refl eq_refl eq_refl _ _ _) _);
    [vm_compute; reflexivity.. | by vm_compute].
Defined.

End MainFacts.

(** ** The regenerated table *)

Section RegeneratedTableFacts.
Import PyStr Docx Notice.




End RegeneratedTableFacts.

(** ** The entries of the bank map *)

Section BankMapFacts.
Import PyStr Ifsc.

Lemma bank_keys_four_letters (k name : string) :
  IFSC_BANK_MAP !! k = Some name →
  String.length k = 4 ∧ upper k = k ∧ isalpha k = true.
Proof.
  unfold IFSC_BANK_MAP. intros H. apply elem_of_list_to_map_2 in H.
  match type of H with
  | _ ∈ ?l =>
      assert (Forall (λ kv : string * string,
                        String.length kv.1 = 4 ∧ upper kv.1 = kv.1
                        ∧ isalpha kv.1 = true) l) as Hall
  end.
  { repeat constructor. }
  rewrite Forall_forall in Hall. apply (Hall _ H).
Qed.

(** X26. Every entry of the bank map can be hit: its key is four
    upper-case letters, so [get_bank_name] returns the entry's name for
    every code that starts with the key, in upper or lower case, and the
    key followed by "0000000" passes [validate_ifsc]. *)
Theorem bank_map_entries_reachable (k name rest : string) :
  IFSC_BANK_MAP !! k = Some name →
  get_bank_name (Some (k +:+ rest)) = name
  ∧ get_bank_name (Some (lower k +:+ rest)) = name
  ∧ validate_ifsc (k +:+ "0000000") = Ok true.
Proof.
  intros Hk. destruct (bank_keys_four_letters k name Hk) as (Hlen & Hup & Hal).
  pose proof (bank_names_nonempty k name Hk) as Hne.
  destruct k as [|c0 [|c1 [|c2 [|c3 [|c4 k]]]]]; try done. clear Hlen.
  assert (upper (lower (String c0 (String c1 (String c2 (String c3 "")))))
          = String c0 (String c1 (String c2 (String c3 "")))) as Hlow.
  { rewrite <- Hup at 2. cbn. f_equal; [|f_equal; [|f_equal; [|f_equal]]].
    all: match goal with
         | |- upper_char (lower_char ?c) = _ =>
             by destruct c as [[] [] [] [] [] [] [] []]
         end. }
  split_and!.
  - unfold get_bank_name.
    change (String c0 (String c1 (String c2 (String c3 ""))) +:+ rest)
      with (String c0 (String c1 (String c2 (String c3 rest)))).
    cbn [truthy is_empty negb orb String.length Nat.ltb Nat.leb slice_to].
    rewrite Hup, Hk. cbn [truthy fmt]. by rewrite Hne.
  - unfold get_bank_name.
    change (lower (String c0 (String c1 (String c2 (String c3 ""))))  +:+ rest)
      with (String (lower_char c0) (String (lower_char c1)
              (String (lower_char c2) (String (lower_char c3) rest)))).
    cbn [truthy is_empty negb orb String.length Nat.ltb Nat.leb slice_to].
    change (String (lower_char c0) (String (lower_char c1)
              (String (lower_char c2) (String (lower_char c3) ""))))
      with (lower (String c0 (String c1 (String c2 (String c3 ""))))).
    rewrite Hlow, Hk. cbn [truthy fmt]. by rewrite Hne.
  - unfold validate_ifsc.
    change (String c0 (String c1 (String c2 (String c3 ""))) +:+ "0000000")
      with (String c0 (String c1 (String c2 (String c3 "0000000")))).
    cbn [String.length Nat.eqb negb slice_to].
    rewrite Hal. cbn [negb]. reflexivity.
Qed.

Lemma bank_map_entries_reachable_witness :
  get_bank_name (Some ("HDFC" +:+ "0001234")) = "HDFC BANK"
  ∧ get_bank_name (Some (lower "HDFC" +:+ "0001234")) = "HDFC BANK"
  ∧ validate_ifsc ("HDFC" +:+ "0000000") = Ok true.
Proof. apply bank_map_entries_reachable. reflexivity. Defined.

End BankMapFacts.
